(** * analizador_de_Redes.py: the Wi-Fi record parser and its HTTP handler

    A shallow embedding of [WiFiDataHandler] (src/analizador_de_Redes.py).
    Python text is a list of Unicode code points, a dict is an association
    list in insertion order, an exception is a value of [exception] carried
    by [result], and what the handler sends is the trace of the calls it makes
    on its base class. *)

From Stdlib Require Import String Ascii NArith ZArith Bool Lia Arith List.
From Stdlib Require Import DecimalString.
Import ListNotations.

Local Open Scope N_scope.

(** ** Text *)

Definition char := N.
Definition str := list char.

(** A literal of the source, as code points. *)
Definition py (s : string) : str := map N_of_ascii (list_ascii_of_string s).

Definition comma : char := 44.
Definition dquote : char := 34.
Definition newline : char := 10.

Definition is_comma (c : char) : bool := c =? comma.
Definition is_quote (c : char) : bool := c =? dquote.
Definition is_newline (c : char) : bool := c =? newline.

(** The characters [str.strip()] removes: CPython's Py_UNICODE_ISSPACE. *)
Definition is_space (c : char) : bool :=
  ((9 <=? c) && (c <=? 13)) || ((28 <=? c) && (c <=? 32))
  || (c =? 133) || (c =? 160) || (c =? 5760)
  || ((8192 <=? c) && (c <=? 8202))
  || (c =? 8232) || (c =? 8233) || (c =? 8239) || (c =? 8287) || (c =? 12288).

Fixpoint dropwhile (p : char -> bool) (s : str) : str :=
  match s with
  | [] => []
  | c :: rest => if p c then dropwhile p rest else s
  end.

(** [span p s]: the longest prefix of [s] whose characters satisfy [p], and
    what follows it. *)
Fixpoint span (p : char -> bool) (s : str) : str * str :=
  match s with
  | [] => ([], [])
  | c :: rest =>
      if p c then let (run, after) := span p rest in (c :: run, after)
      else ([], s)
  end.

Definition lstrip (p : char -> bool) (s : str) : str := dropwhile p s.
Definition rstrip (p : char -> bool) (s : str) : str := rev (dropwhile p (rev s)).

(** [s.strip()] is [strip is_space s]; stripping the double quote, the
    source's second [strip], is [strip is_quote s]. *)
Definition strip (p : char -> bool) (s : str) : str := rstrip p (lstrip p s).

(** Truth value of a string: non-empty. *)
Definition truthy (s : str) : bool :=
  match s with [] => false | _ :: _ => true end.

(** [s.split('\n')] *)
Fixpoint split_lines (s : str) : list str :=
  match s with
  | [] => [[]]
  | c :: rest =>
      if is_newline c then [] :: split_lines rest
      else match split_lines rest with
           | l :: ls => (c :: l) :: ls
           | [] => [[c]]
           end
  end.

(** ** The tokenizer: [re.findall(pattern, line)]

    The pattern has two alternatives: a non-empty run of characters that are
    neither a comma nor a double quote, or a double quote, any characters but
    a double quote, and a double quote. *)

(** The class of the first alternative: neither comma nor double quote. *)
Definition plain (c : char) : bool := negb (is_comma c || is_quote c).

(** The class inside the quoted alternative: anything but a double quote. *)
Definition unquote (c : char) : bool := negb (is_quote c).

(** At each position the first alternative takes the longest run of plain
    characters; at a double quote the second alternative takes the span up to
    the next double quote, and when there is none nothing matches there and
    the scan moves one character on; a comma matches nothing. The fuel is the
    number of positions left. *)
Fixpoint scan (fuel : nat) (s : str) : list str :=
  match fuel with
  | O => []
  | S fuel' =>
      match s with
      | [] => []
      | c :: rest =>
          if plain c then
            let (run, after) := span plain s in run :: scan fuel' after
          else if is_quote c then
            match span unquote rest with
            | (inner, q :: after) => (c :: inner ++ [q]) :: scan fuel' after
            | (_, []) => scan fuel' rest
            end
          else scan fuel' rest
      end
  end.

Definition re_findall (s : str) : list str := scan (length s) s.

(** ** Values and exceptions *)

(** A float as [float()] reads it: the decimal it denotes, [digits] times
    ten to the [exponent] with [digits] not a multiple of ten unless it is
    zero, an infinity or a NaN. The value is kept exact: rounding to binary64
    is not part of the model, and no statement below depends on it. *)
Inductive pyfloat :=
| Decimal (negative : bool) (digits : N) (exponent : Z)
| Infinity (negative : bool)
| NaN (negative : bool).

(** The literal [0.0]. *)
Definition float_zero : pyfloat := Decimal false 0 0.

Inductive value :=
| VStr (s : str)
| VFloat (f : pyfloat)
| VInt (n : Z).

(** A dict with string keys, in insertion order. *)
Definition dict := list (str * value).

Fixpoint lookup (key : str) (d : dict) : option value :=
  match d with
  | [] => None
  | (k, v) :: rest => if list_eq_dec N.eq_dec k key then Some v else lookup key rest
  end.

(** What the handler's [except Exception] can catch: the two conversions'
    [ValueError], with the offending token, and whatever [urlopen], [read] or
    [decode] raised, with its text; [encode]'s error, with the text it was
    encoding and the positions, first and one past the last, of the
    characters it refused; and what a call on the connection raised, with its
    text. *)
Inductive exception :=
| ValueError_float (token : str)
| ValueError_int (token : str)
| FetchError (description : str)
| UnicodeEncodeError (text : str) (start stop : nat)
| ConnectionError (description : str).

Inductive result (A : Type) :=
| Ok (a : A)
| Raise (e : exception).
Arguments Ok {A} a.
Arguments Raise {A} e.

Definition bind {A B : Type} (m : result A) (k : A -> result B) : result B :=
  match m with
  | Ok a => k a
  | Raise e => Raise e
  end.

Notation "x <- m ;; k" := (bind m (fun x => k))
  (at level 61, m at next level, right associativity).

(** ** The conversions [int(token)] and [float(token)] (CPython 3.11) *)

(** C's isspace, as Py_ISSPACE has it. *)
Definition c_isspace (c : char) : bool := ((9 <=? c) && (c <=? 13)) || (c =? 32).
Definition is_digit (c : char) : bool := (48 <=? c) && (c <=? 57).
Definition underscore : char := 95.
Definition is_underscore (c : char) : bool := c =? underscore.

(** The digit zero of every decimal-digit block of Unicode 14; the ten digits
    of a block are consecutive. *)
Definition decimal_zeros : list N :=
  [48; 1632; 1776; 1984; 2406; 2534; 2662; 2790; 2918; 3046; 3174; 3302; 3430;
   3558; 3664; 3792; 3872; 4160; 4240; 6112; 6160; 6470; 6608; 6784; 6800;
   6992; 7088; 7232; 7248; 42528; 43216; 43264; 43472; 43504; 43600; 44016;
   65296; 66720; 68912; 69734; 69872; 69942; 70096; 70384; 70736; 70864;
   71248; 71360; 71472; 71904; 72016; 72784; 73040; 73120; 92768; 92864;
   93008; 120782; 120792; 120802; 120812; 120822; 123200; 123632; 125264;
   130032].

(** Py_UNICODE_TODECIMAL *)
Definition to_decimal (c : char) : option N :=
  option_map (fun z => c - z)
             (find (fun z => (z <=? c) && (c <? z + 10)) decimal_zeros).

(** Both conversions first turn every non-ASCII space into a blank and every
    non-ASCII decimal digit into its ASCII digit; at any other non-ASCII
    character the text is cut and ends in a question mark. *)
Fixpoint transform (s : str) : str :=
  match s with
  | [] => []
  | c :: rest =>
      if c <? 127 then c :: transform rest
      else if is_space c then 32 :: transform rest
      else match to_decimal c with
           | Some d => (48 + d) :: transform rest
           | None => [63]
           end
  end.

Definition to_ascii (s : str) : str :=
  if forallb (fun c => c <? 128) s then s else transform s.

Definition sign (s : str) : bool * str :=
  match s with
  | c :: rest => if c =? 45 then (true, rest) else if c =? 43 then (false, rest) else (false, s)
  | [] => (false, [])
  end.

(** The digits of an integer literal, single underscores allowed between
    them: how many digits, their value, and what follows. *)
Fixpoint scan_digits (s : str) (prev : char) (count : nat) (acc : N)
  : option (nat * N * str) :=
  match s with
  | c :: rest =>
      if is_underscore c then
        if is_underscore prev then None else scan_digits rest c count acc
      else if is_digit c then scan_digits rest c (S count) (10 * acc + (c - 48))
      else if is_underscore prev then None else Some (count, acc, s)
  | [] => if is_underscore prev then None else Some (count, acc, [])
  end.

(** sys.get_int_max_str_digits(), at its default. *)
Definition int_max_str_digits : nat := 4300.

(** [int(s)]: [None] is ValueError. *)
Definition py_int (s : str) : option Z :=
  let '(negative, body) := sign (dropwhile c_isspace (to_ascii s)) in
  match body with
  | [] => None
  | c :: _ =>
      if is_underscore c then None
      else match scan_digits body 0 O 0 with
           | None => None
           | Some (count, n, after) =>
               if (count =? 0)%nat || (int_max_str_digits <? count)%nat then None
               else match dropwhile c_isspace after with
                    | [] => Some (if negative then (- Z.of_N n)%Z else Z.of_N n)
                    | _ :: _ => None
                    end
           end
  end.

(** Underscores of a float literal: each one after a digit and before a
    digit; they are removed. *)
Fixpoint remove_underscores (prev : char) (s : str) : option str :=
  match s with
  | [] => if is_underscore prev then None else Some []
  | c :: rest =>
      if is_underscore c then
        if is_digit prev then remove_underscores c rest else None
      else if is_underscore prev && negb (is_digit c) then None
      else option_map (cons c) (remove_underscores c rest)
  end.

Definition digits_value (ds : str) (acc : N) : N :=
  fold_left (fun a c => 10 * a + (c - 48)) ds acc.

(** An exponent part: [e] or [E], a sign, digits. Without a digit nothing of
    it is consumed. *)
Definition exponent_part (s : str) : Z * str :=
  match s with
  | c :: rest =>
      if (c =? 101) || (c =? 69) then
        let '(negative, rest') := sign rest in
        match span is_digit rest' with
        | ([], _) => (0%Z, s)
        | (ds, after) =>
            let e := Z.of_N (digits_value ds 0) in
            ((if negative then - e else e)%Z, after)
        end
      else (0%Z, s)
  | [] => (0%Z, [])
  end.

(** The decimal [m] times ten to the [e], the trailing zeros of [m] moved
    into the exponent; [fuel] is the number of digits of [m]. *)
Fixpoint normalize (fuel : nat) (m : N) (e : Z) : N * Z :=
  match fuel with
  | O => (m, e)
  | S fuel' =>
      if m =? 0 then (0, 0%Z)
      else if m mod 10 =? 0 then normalize fuel' (m / 10) (e + 1)%Z
      else (m, e)
  end.

(** The decimal grammar of strtod: sign, digits, an optional point and
    digits, an optional exponent; at least one digit. *)
Definition strtod (s : str) : option (pyfloat * str) :=
  let '(negative, s1) := sign s in
  let '(int_digits, s2) := span is_digit s1 in
  let '(frac_digits, s3) :=
    match s2 with
    | c :: rest => if c =? 46 then span is_digit rest else ([], s2)
    | [] => ([], [])
    end in
  match int_digits ++ frac_digits with
  | [] => None
  | ds =>
      let '(e, after) := exponent_part s3 in
      let '(m, e') := normalize (length ds) (digits_value ds 0)
                                (e - Z.of_nat (length frac_digits)) in
      Some (Decimal negative m e', after)
  end.

Definition lower (c : char) : char :=
  if (65 <=? c) && (c <=? 90) then c + 32 else c.

(** [word] is in lower case. *)
Fixpoint match_word (word s : str) : option str :=
  match word, s with
  | [], _ => Some s
  | w :: word', c :: rest => if lower c =? w then match_word word' rest else None
  | _ :: _, [] => None
  end.

Definition inf_or_nan (s : str) : option (pyfloat * str) :=
  let '(negative, s1) := sign s in
  match match_word (py "inf") s1 with
  | Some after =>
      match match_word (py "inity") after with
      | Some after' => Some (Infinity negative, after')
      | None => Some (Infinity negative, after)
      end
  | None =>
      match match_word (py "nan") s1 with
      | Some after => Some (NaN negative, after)
      | None => None
      end
  end.

(** [float(s)]: [None] is ValueError. *)
Definition py_float (s : str) : option pyfloat :=
  let text := rstrip c_isspace (dropwhile c_isspace (to_ascii s)) in
  match remove_underscores 0 text with
  | None => None
  | Some t =>
      match strtod t with
      | Some (f, []) => Some f
      | Some (_, _ :: _) => None
      | None =>
          match inf_or_nan t with
          | Some (f, []) => Some f
          | _ => None
          end
      end
  end.

(** ** JSON text and its bytes *)

Definition bytes := list N.

Fixpoint join (sep : str) (parts : list str) : str :=
  match parts with
  | [] => []
  | [p] => p
  | p :: rest => p ++ sep ++ join sep rest
  end.

Definition hex_digit (n : N) : char := if n <? 10 then 48 + n else 87 + n.

(** A backslash, [u] and four lower-case hexadecimal digits. *)
Definition u_escape (n : N) : str :=
  [92; 117; hex_digit (n / 4096 mod 16); hex_digit (n / 256 mod 16);
   hex_digit (n / 16 mod 16); hex_digit (n mod 16)].

(** json's ESCAPE_ASCII: the backslash, the double quote and everything
    outside the printable ASCII range are escaped. *)
Definition escape_char (c : char) : str :=
  if c =? 92 then [92; 92]
  else if c =? 34 then [92; 34]
  else if c =? 8 then [92; 98]
  else if c =? 12 then [92; 102]
  else if c =? 10 then [92; 110]
  else if c =? 13 then [92; 114]
  else if c =? 9 then [92; 116]
  else if (32 <=? c) && (c <=? 126) then [c]
  else if c <? 65536 then u_escape c
  else u_escape (55296 + ((c - 65536) / 1024) mod 1024)
       ++ u_escape (56320 + (c - 65536) mod 1024).

Definition dumps_str (s : str) : str :=
  [dquote] ++ flat_map escape_char s ++ [dquote].

Definition dumps_int (n : Z) : str := py (NilZero.string_of_int (Z.to_int n)).

Inductive json :=
| JArray (items : list dict)
| JObject (d : dict).

Definition newline_indent (indent level : nat) : str :=
  newline :: repeat 32 (indent * level)%nat.

(** [open] and [close] around the items: one per line and indented under
    [indent], on one line without. *)
Definition container (indent : option nat) (level : nat) (open_ close : str)
           (items : list str) : str :=
  match items with
  | [] => open_ ++ close
  | _ :: _ =>
      match indent with
      | Some n =>
          open_ ++ newline_indent n (S level)
          ++ join (py "," ++ newline_indent n (S level)) items
          ++ newline_indent n level ++ close
      | None => open_ ++ join (py ", ") items ++ close
      end
  end.

(** UTF-8; a surrogate cannot be encoded. *)
Definition utf8_char (c : char) : option bytes :=
  if c <? 128 then Some [c]
  else if c <? 2048 then Some [192 + c / 64; 128 + c mod 64]
  else if c <? 65536 then
    if (55296 <=? c) && (c <=? 57343) then None
    else Some [224 + c / 4096; 128 + (c / 64) mod 64; 128 + c mod 64]
  else if c <? 1114112 then
    Some [240 + c / 262144; 128 + (c / 4096) mod 64; 128 + (c / 64) mod 64;
          128 + c mod 64]
  else None.

Definition is_surrogate (c : char) : bool := (55296 <=? c) && (c <=? 57343).

(** The bytes of [s], which begins at [position] in [text]; the error is
    for the whole run of surrogates met. *)
Fixpoint encode_from (text : str) (position : nat) (s : str) : result bytes :=
  match s with
  | [] => Ok []
  | c :: rest =>
      match utf8_char c with
      | None =>
          Raise (UnicodeEncodeError
                   text position
                   (position + length (fst (span is_surrogate s))))
      | Some b => tail <- encode_from text (S position) rest ;; Ok (b ++ tail)
      end
  end.

(** [s.encode('utf-8')] *)
Definition encode (s : str) : result bytes := encode_from s 0 s.

Fixpoint str_eqb (a b : str) : bool :=
  match a, b with
  | [], [] => true
  | x :: a', y :: b' => (x =? y) && str_eqb a' b'
  | _, _ => false
  end.

(** ** The handler *)

(** The calls a handler makes on [BaseHTTPRequestHandler] and on [wfile]. *)
Inductive call :=
| send_response (code : N)
| send_header (keyword value : str)
| end_headers
| write (data : bytes).

(** A method of the handler: it extends the trace of calls and returns or
    raises. *)
Definition handler (A : Type) := list call -> result A * list call.

(** A call on a connection that works: it is made and returns. The
    handler over a connection whose calls may raise is [OverTransport]
    below. *)
Definition emit (c : call) : handler unit := fun trace => (Ok tt, trace ++ [c]).

Definition lift {A : Type} (r : result A) : handler A := fun trace => (r, trace).

Definition and_then {A B : Type} (m : handler A) (k : A -> handler B) : handler B :=
  fun trace =>
    match m trace with
    | (Ok a, trace') => k a trace'
    | (Raise e, trace') => (Raise e, trace')
    end.

(** [try: body / except Exception as e: on_error e] *)
Definition try_except {A : Type} (body : handler A) (on_error : exception -> handler A)
  : handler A :=
  fun trace =>
    match body trace with
    | (Ok a, trace') => (Ok a, trace')
    | (Raise e, trace') => on_error e trace'
    end.

Notation "m >> k" := (and_then m (fun _ => k))
  (at level 61, right associativity).
Notation "x <~ m ;; k" := (and_then m (fun x => k))
  (at level 61, m at next level, right associativity).

Module WiFiDataHandler.

(** One element of the comprehension: the quotes stripped, then the spaces. *)
Definition clean (field : str) : str := strip is_space (strip is_quote field).

(** [[field.strip(quote).strip() for field in fields if field.strip()]] over
    the tokens of the line. *)
Definition cleaned_fields (line : str) : list str :=
  map clean (filter (fun field => truthy (strip is_space field)) (re_findall line)).

(** [fields[i] if len(fields) > i else default] *)
Definition text_field (fields : list str) (i : nat) (default : str) : value :=
  if (i <? length fields)%nat then VStr (nth i fields []) else VStr default.

(** [float(fields[i]) if len(fields) > i and fields[i] else 0.0] *)
Definition float_field (fields : list str) (i : nat) : result value :=
  if (i <? length fields)%nat && truthy (nth i fields []) then
    match py_float (nth i fields []) with
    | Some f => Ok (VFloat f)
    | None => Raise (ValueError_float (nth i fields []))
    end
  else Ok (VFloat float_zero).

(** [int(fields[i]) if len(fields) > i and fields[i] else 0] *)
Definition int_field (fields : list str) (i : nat) : result value :=
  if (i <? length fields)%nat && truthy (nth i fields []) then
    match py_int (nth i fields []) with
    | Some n => Ok (VInt n)
    | None => Raise (ValueError_int (nth i fields []))
    end
  else Ok (VInt 0).

(** The dict display is evaluated in order; only the four conversions can
    raise. *)
Definition _parse_wifi_line (line : str) : result dict :=
  let fields := cleaned_fields line in
  freq <- float_field fields 2 ;;
  beacon <- int_field fields 3 ;;
  signal <- float_field fields 5 ;;
  primary_channel <- int_field fields 8 ;;
  Ok [ (py "bss", text_field fields 0 (py ""));
       (py "tsf", text_field fields 1 (py ""));
       (py "freq", freq);
       (py "beacon", beacon);
       (py "capa", text_field fields 4 (py "0x0"));
       (py "signal", signal);
       (py "ssid", text_field fields 6 (py ""));
       (py "ht_capa", text_field fields 7 (py "0x0"));
       (py "primary_channel", primary_channel);
       (py "vht_capa", text_field fields 9 (py "0x0"));
       (py "he_capa", text_field fields 10 (py "0x0"));
       (py "he_phy_capa", text_field fields 11 (py ""));
       (py "encryption", text_field fields 12 (py ""));
       (py "cipher", text_field fields 13 (py ""));
       (py "suite", text_field fields 14 (py "")) ].

(** Truth value of a dict: non-empty. *)
Definition dict_truthy (d : dict) : bool :=
  match d with [] => false | _ :: _ => true end.

(** The [for line in lines] loop, [networks] being the list built so far. *)
Fixpoint parse_lines (lines : list str) (networks : list dict) : result (list dict) :=
  match lines with
  | [] => Ok networks
  | line :: rest =>
      if negb (truthy (strip is_space line)) then parse_lines rest networks
      else
        network <- _parse_wifi_line line ;;
        if dict_truthy network then parse_lines rest (networks ++ [network])
        else parse_lines rest networks
  end.

Definition _parse_wifi_content (content : str) : result (list dict) :=
  parse_lines (split_lines (strip is_space content)) [].

Definition url : str :=
  py "https://mochila.laotra.red/public.php/dav/files/9TcBaPFWMQiEMsn/".

Section Runtime.

(** How json writes a float: [float.__repr__], or NaN, Infinity, -Infinity.
    It is ASCII text. *)
Variable float_repr : pyfloat -> string.

(** [str(e)] *)
Variable exception_str : exception -> str.

(** What [urlopen(url).read().decode('utf-8')] gives at the time of the
    request: the text, or the exception one of the three raised. *)
Variable urlopen : str -> result str.

Definition dumps_value (v : value) : str :=
  match v with
  | VStr s => dumps_str s
  | VInt n => dumps_int n
  | VFloat f => py (float_repr f)
  end.

Definition dumps_item (item : str * value) : str :=
  dumps_str (fst item) ++ py ": " ++ dumps_value (snd item).

Definition dumps_dict (indent : option nat) (level : nat) (d : dict) : str :=
  container indent level (py "{") (py "}") (map dumps_item d).

(** [json.dumps(obj, indent=indent)], with [ensure_ascii] at its default. *)
Definition json_dumps (obj : json) (indent : option nat) : str :=
  match obj with
  | JObject d => dumps_dict indent 0 d
  | JArray items =>
      container indent 0 (py "[") (py "]") (map (dumps_dict indent 1) items)
  end.

Definition _fetch_and_parse_wifi_data : handler (list dict) :=
  content <~ lift (urlopen url) ;;
  lift (_parse_wifi_content content).

Definition _serve_error (message : str) : handler unit :=
  emit (send_response 500) >>
  emit (send_header (py "Content-Type") (py "application/json; charset=utf-8")) >>
  emit end_headers >>
  let error_data := [(py "error", VStr message)] in
  body <~ lift (encode (json_dumps (JObject error_data) None)) ;;
  emit (write body).

Definition _serve_404 : handler unit :=
  emit (send_response 404) >>
  emit (send_header (py "Content-Type") (py "text/plain; charset=utf-8")) >>
  emit end_headers >>
  emit (write (py "Ruta no encontrada. Use /air para obtener datos Wi-Fi.")).

Definition _serve_wifi_data : handler unit :=
  try_except
    (wifi_data <~ _fetch_and_parse_wifi_data ;;
     emit (send_response 200) >>
     emit (send_header (py "Content-Type") (py "application/json; charset=utf-8")) >>
     emit (send_header (py "Access-Control-Allow-Origin") (py "*")) >>
     emit end_headers >>
     body <~ lift (encode (json_dumps (JArray wifi_data) (Some 2%nat))) ;;
     emit (write body))
    (fun e => _serve_error (py "Error procesando datos: " ++ exception_str e)).

Definition do_GET (path : str) : handler unit :=
  if str_eqb path (py "/air") then _serve_wifi_data else _serve_404.

End Runtime.

End WiFiDataHandler.

(** ** The handler over a connection that may fail

    [WiFiDataHandler] takes every call on the connection to return. Here a
    call may raise instead: [transport trace c] is the exception that the call
    [c] raises when it is made after the calls of [trace], if it raises. The
    trace holds the calls that returned. The methods are those of the source
    once more, call for call; fetching, parsing and writing JSON are as
    above. *)
Module OverTransport.

Section Runtime.

Variable transport : list call -> call -> option exception.
Variable float_repr : pyfloat -> string.
Variable exception_str : exception -> str.
Variable urlopen : str -> result str.

Definition emit (c : call) : handler unit :=
  fun trace =>
    match transport trace c with
    | Some e => (Raise e, trace)
    | None => (Ok tt, trace ++ [c])
    end.

Definition _serve_error (message : str) : handler unit :=
  emit (send_response 500) >>
  emit (send_header (py "Content-Type") (py "application/json; charset=utf-8")) >>
  emit end_headers >>
  let error_data := [(py "error", VStr message)] in
  body <~ lift (encode (WiFiDataHandler.json_dumps float_repr (JObject error_data) None)) ;;
  emit (write body).

Definition _serve_404 : handler unit :=
  emit (send_response 404) >>
  emit (send_header (py "Content-Type") (py "text/plain; charset=utf-8")) >>
  emit end_headers >>
  emit (write (py "Ruta no encontrada. Use /air para obtener datos Wi-Fi.")).

Definition _serve_wifi_data : handler unit :=
  try_except
    (wifi_data <~ WiFiDataHandler._fetch_and_parse_wifi_data urlopen ;;
     emit (send_response 200) >>
     emit (send_header (py "Content-Type") (py "application/json; charset=utf-8")) >>
     emit (send_header (py "Access-Control-Allow-Origin") (py "*")) >>
     emit end_headers >>
     body <~ lift (encode (WiFiDataHandler.json_dumps float_repr (JArray wifi_data)
                                                      (Some 2%nat))) ;;
     emit (write body))
    (fun e => _serve_error (py "Error procesando datos: " ++ exception_str e)).

Definition do_GET (path : str) : handler unit :=
  if str_eqb path (py "/air") then _serve_wifi_data else _serve_404.

End Runtime.

End OverTransport.

(** ** Vocabulary of the statements *)

Import WiFiDataHandler.

(** A line or token that [strip()] leaves empty. *)
Definition blank (s : str) : bool := negb (truthy (strip is_space s)).

Definition quote_count (s : str) : nat := length (filter is_quote s).

(** A double-quoted span. *)
Definition quoted (inner : str) : str := dquote :: inner ++ [dquote].

Definition attribute_names : list str :=
  map py [ "bss"; "tsf"; "freq"; "beacon"; "capa"; "signal"; "ssid"; "ht_capa";
           "primary_channel"; "vht_capa"; "he_capa"; "he_phy_capa"; "encryption";
           "cipher"; "suite" ]%string.

(** The attributes of a record, in order, each with its default. *)
Definition defaults : dict :=
  [ (py "bss", VStr (py ""));
    (py "tsf", VStr (py ""));
    (py "freq", VFloat float_zero);
    (py "beacon", VInt 0);
    (py "capa", VStr (py "0x0"));
    (py "signal", VFloat float_zero);
    (py "ssid", VStr (py ""));
    (py "ht_capa", VStr (py "0x0"));
    (py "primary_channel", VInt 0);
    (py "vht_capa", VStr (py "0x0"));
    (py "he_capa", VStr (py "0x0"));
    (py "he_phy_capa", VStr (py ""));
    (py "encryption", VStr (py ""));
    (py "cipher", VStr (py ""));
    (py "suite", VStr (py "")) ].

(** The conversion of a numeric position, as a value or the exception. *)
Definition float_of (token : str) : result value :=
  match py_float token with
  | Some f => Ok (VFloat f)
  | None => Raise (ValueError_float token)
  end.

Definition int_of (token : str) : result value :=
  match py_int token with
  | Some n => Ok (VInt n)
  | None => Raise (ValueError_int token)
  end.

(** The numeric positions: index, attribute, conversion. *)
Definition numeric_positions : list (nat * str * (str -> result value)) :=
  [ (2%nat, py "freq", float_of);
    (3%nat, py "beacon", int_of);
    (5%nat, py "signal", float_of);
    (8%nat, py "primary_channel", int_of) ].

(** [f] over a list, stopping at the first exception. *)
Fixpoint traverse {A B : Type} (f : A -> result B) (l : list A) : result (list B) :=
  match l with
  | [] => Ok []
  | a :: rest => b <- f a ;; bs <- traverse f rest ;; Ok (b :: bs)
  end.

(** The lines of a text that are not blank, in order. *)
Definition nonblank_lines (content : str) : list str :=
  filter (fun line => negb (blank line)) (split_lines content).

(** A string field of a record holds no double quote. *)
Definition quote_free_value (v : value) : Prop :=
  match v with
  | VStr s => ~ In dquote s
  | _ => True
  end.

(** The line of the quoted network name. *)
Definition home_network_line : str :=
  py "aa:bb,ts,2412,100,0x0,-50," ++ quoted (py "My, Home Network") ++ py ",0x0,6".

(** A line whose second field is an empty quoted span. *)
Definition empty_quoted_line : str := py "a," ++ quoted [] ++ py ",2412".

(** Two lines, the second with a frequency that is no number. *)
Definition bad_frequency_text : str := py "a,b" ++ [newline] ++ py "c,d,x".

(** The code points that [str.isprintable] refuses, as ranges, first and
    last (Unicode 14). *)
Definition unprintable_ranges : list (N * N) :=
  [ (0, 31); (127, 160); (173, 173); (888, 889); (896, 899); (907, 907);
    (909, 909); (930, 930); (1328, 1328); (1367, 1368); (1419, 1420); (1424,
    1424); (1480, 1487); (1515, 1518); (1525, 1541); (1564, 1564); (1757,
    1757); (1806, 1807); (1867, 1868); (1970, 1983); (2043, 2044); (2094,
    2095); (2111, 2111); (2140, 2141); (2143, 2143); (2155, 2159); (2191,
    2199); (2274, 2274); (2436, 2436); (2445, 2446); (2449, 2450); (2473,
    2473); (2481, 2481); (2483, 2485); (2490, 2491); (2501, 2502); (2505,
    2506); (2511, 2518); (2520, 2523); (2526, 2526); (2532, 2533); (2559,
    2560); (2564, 2564); (2571, 2574); (2577, 2578); (2601, 2601); (2609,
    2609); (2612, 2612); (2615, 2615); (2618, 2619); (2621, 2621); (2627,
    2630); (2633, 2634); (2638, 2640); (2642, 2648); (2653, 2653); (2655,
    2661); (2679, 2688); (2692, 2692); (2702, 2702); (2706, 2706); (2729,
    2729); (2737, 2737); (2740, 2740); (2746, 2747); (2758, 2758); (2762,
    2762); (2766, 2767); (2769, 2783); (2788, 2789); (2802, 2808); (2816,
    2816); (2820, 2820); (2829, 2830); (2833, 2834); (2857, 2857); (2865,
    2865); (2868, 2868); (2874, 2875); (2885, 2886); (2889, 2890); (2894,
    2900); (2904, 2907); (2910, 2910); (2916, 2917); (2936, 2945); (2948,
    2948); (2955, 2957); (2961, 2961); (2966, 2968); (2971, 2971); (2973,
    2973); (2976, 2978); (2981, 2983); (2987, 2989); (3002, 3005); (3011,
    3013); (3017, 3017); (3022, 3023); (3025, 3030); (3032, 3045); (3067,
    3071); (3085, 3085); (3089, 3089); (3113, 3113); (3130, 3131); (3141,
    3141); (3145, 3145); (3150, 3156); (3159, 3159); (3163, 3164); (3166,
    3167); (3172, 3173); (3184, 3190); (3213, 3213); (3217, 3217); (3241,
    3241); (3252, 3252); (3258, 3259); (3269, 3269); (3273, 3273); (3278,
    3284); (3287, 3292); (3295, 3295); (3300, 3301); (3312, 3312); (3315,
    3327); (3341, 3341); (3345, 3345); (3397, 3397); (3401, 3401); (3408,
    3411); (3428, 3429); (3456, 3456); (3460, 3460); (3479, 3481); (3506,
    3506); (3516, 3516); (3518, 3519); (3527, 3529); (3531, 3534); (3541,
    3541); (3543, 3543); (3552, 3557); (3568, 3569); (3573, 3584); (3643,
    3646); (3676, 3712); (3715, 3715); (3717, 3717); (3723, 3723); (3748,
    3748); (3750, 3750); (3774, 3775); (3781, 3781); (3783, 3783); (3790,
    3791); (3802, 3803); (3808, 3839); (3912, 3912); (3949, 3952); (3992,
    3992); (4029, 4029); (4045, 4045); (4059, 4095); (4294, 4294); (4296,
    4300); (4302, 4303); (4681, 4681); (4686, 4687); (4695, 4695); (4697,
    4697); (4702, 4703); (4745, 4745); (4750, 4751); (4785, 4785); (4790,
    4791); (4799, 4799); (4801, 4801); (4806, 4807); (4823, 4823); (4881,
    4881); (4886, 4887); (4955, 4956); (4989, 4991); (5018, 5023); (5110,
    5111); (5118, 5119); (5760, 5760); (5789, 5791); (5881, 5887); (5910,
    5918); (5943, 5951); (5972, 5983); (5997, 5997); (6001, 6001); (6004,
    6015); (6110, 6111); (6122, 6127); (6138, 6143); (6158, 6158); (6170,
    6175); (6265, 6271); (6315, 6319); (6390, 6399); (6431, 6431); (6444,
    6447); (6460, 6463); (6465, 6467); (6510, 6511); (6517, 6527); (6572,
    6575); (6602, 6607); (6619, 6621); (6684, 6685); (6751, 6751); (6781,
    6782); (6794, 6799); (6810, 6815); (6830, 6831); (6863, 6911); (6989,
    6991); (7039, 7039); (7156, 7163); (7224, 7226); (7242, 7244); (7305,
    7311); (7355, 7356); (7368, 7375); (7419, 7423); (7958, 7959); (7966,
    7967); (8006, 8007); (8014, 8015); (8024, 8024); (8026, 8026); (8028,
    8028); (8030, 8030); (8062, 8063); (8117, 8117); (8133, 8133); (8148,
    8149); (8156, 8156); (8176, 8177); (8181, 8181); (8191, 8207); (8232,
    8239); (8287, 8303); (8306, 8307); (8335, 8335); (8349, 8351); (8385,
    8399); (8433, 8447); (8588, 8591); (9255, 9279); (9291, 9311); (11124,
    11125); (11158, 11158); (11508, 11512); (11558, 11558); (11560, 11564);
    (11566, 11567); (11624, 11630); (11633, 11646); (11671, 11679); (11687,
    11687); (11695, 11695); (11703, 11703); (11711, 11711); (11719, 11719);
    (11727, 11727); (11735, 11735); (11743, 11743); (11870, 11903); (11930,
    11930); (12020, 12031); (12246, 12271); (12284, 12288); (12352, 12352);
    (12439, 12440); (12544, 12548); (12592, 12592); (12687, 12687); (12772,
    12783); (12831, 12831); (42125, 42127); (42183, 42191); (42540, 42559);
    (42744, 42751); (42955, 42959); (42962, 42962); (42964, 42964); (42970,
    42993); (43053, 43055); (43066, 43071); (43128, 43135); (43206, 43213);
    (43226, 43231); (43348, 43358); (43389, 43391); (43470, 43470); (43482,
    43485); (43519, 43519); (43575, 43583); (43598, 43599); (43610, 43611);
    (43715, 43738); (43767, 43776); (43783, 43784); (43791, 43792); (43799,
    43807); (43815, 43815); (43823, 43823); (43884, 43887); (44014, 44015);
    (44026, 44031); (55204, 55215); (55239, 55242); (55292, 63743); (64110,
    64111); (64218, 64255); (64263, 64274); (64280, 64284); (64311, 64311);
    (64317, 64317); (64319, 64319); (64322, 64322); (64325, 64325); (64451,
    64466); (64912, 64913); (64968, 64974); (64976, 65007); (65050, 65055);
    (65107, 65107); (65127, 65127); (65132, 65135); (65141, 65141); (65277,
    65280); (65471, 65473); (65480, 65481); (65488, 65489); (65496, 65497);
    (65501, 65503); (65511, 65511); (65519, 65531); (65534, 65535); (65548,
    65548); (65575, 65575); (65595, 65595); (65598, 65598); (65614, 65615);
    (65630, 65663); (65787, 65791); (65795, 65798); (65844, 65846); (65935,
    65935); (65949, 65951); (65953, 65999); (66046, 66175); (66205, 66207);
    (66257, 66271); (66300, 66303); (66340, 66348); (66379, 66383); (66427,
    66431); (66462, 66462); (66500, 66503); (66518, 66559); (66718, 66719);
    (66730, 66735); (66772, 66775); (66812, 66815); (66856, 66863); (66916,
    66926); (66939, 66939); (66955, 66955); (66963, 66963); (66966, 66966);
    (66978, 66978); (66994, 66994); (67002, 67002); (67005, 67071); (67383,
    67391); (67414, 67423); (67432, 67455); (67462, 67462); (67505, 67505);
    (67515, 67583); (67590, 67591); (67593, 67593); (67638, 67638); (67641,
    67643); (67645, 67646); (67670, 67670); (67743, 67750); (67760, 67807);
    (67827, 67827); (67830, 67834); (67868, 67870); (67898, 67902); (67904,
    67967); (68024, 68027); (68048, 68049); (68100, 68100); (68103, 68107);
    (68116, 68116); (68120, 68120); (68150, 68151); (68155, 68158); (68169,
    68175); (68185, 68191); (68256, 68287); (68327, 68330); (68343, 68351);
    (68406, 68408); (68438, 68439); (68467, 68471); (68498, 68504); (68509,
    68520); (68528, 68607); (68681, 68735); (68787, 68799); (68851, 68857);
    (68904, 68911); (68922, 69215); (69247, 69247); (69290, 69290); (69294,
    69295); (69298, 69375); (69416, 69423); (69466, 69487); (69514, 69551);
    (69580, 69599); (69623, 69631); (69710, 69713); (69750, 69758); (69821,
    69821); (69827, 69839); (69865, 69871); (69882, 69887); (69941, 69941);
    (69960, 69967); (70007, 70015); (70112, 70112); (70133, 70143); (70162,
    70162); (70207, 70271); (70279, 70279); (70281, 70281); (70286, 70286);
    (70302, 70302); (70314, 70319); (70379, 70383); (70394, 70399); (70404,
    70404); (70413, 70414); (70417, 70418); (70441, 70441); (70449, 70449);
    (70452, 70452); (70458, 70458); (70469, 70470); (70473, 70474); (70478,
    70479); (70481, 70486); (70488, 70492); (70500, 70501); (70509, 70511);
    (70517, 70655); (70748, 70748); (70754, 70783); (70856, 70863); (70874,
    71039); (71094, 71095); (71134, 71167); (71237, 71247); (71258, 71263);
    (71277, 71295); (71354, 71359); (71370, 71423); (71451, 71452); (71468,
    71471); (71495, 71679); (71740, 71839); (71923, 71934); (71943, 71944);
    (71946, 71947); (71956, 71956); (71959, 71959); (71990, 71990); (71993,
    71994); (72007, 72015); (72026, 72095); (72104, 72105); (72152, 72153);
    (72165, 72191); (72264, 72271); (72355, 72367); (72441, 72703); (72713,
    72713); (72759, 72759); (72774, 72783); (72813, 72815); (72848, 72849);
    (72872, 72872); (72887, 72959); (72967, 72967); (72970, 72970); (73015,
    73017); (73019, 73019); (73022, 73022); (73032, 73039); (73050, 73055);
    (73062, 73062); (73065, 73065); (73103, 73103); (73106, 73106); (73113,
    73119); (73130, 73439); (73465, 73647); (73649, 73663); (73714, 73726);
    (74650, 74751); (74863, 74863); (74869, 74879); (75076, 77711); (77811,
    77823); (78895, 82943); (83527, 92159); (92729, 92735); (92767, 92767);
    (92778, 92781); (92863, 92863); (92874, 92879); (92910, 92911); (92918,
    92927); (92998, 93007); (93018, 93018); (93026, 93026); (93048, 93052);
    (93072, 93759); (93851, 93951); (94027, 94030); (94088, 94094); (94112,
    94175); (94181, 94191); (94194, 94207); (100344, 100351); (101590,
    101631); (101641, 110575); (110580, 110580); (110588, 110588); (110591,
    110591); (110883, 110927); (110931, 110947); (110952, 110959); (111356,
    113663); (113771, 113775); (113789, 113791); (113801, 113807); (113818,
    113819); (113824, 118527); (118574, 118575); (118599, 118607); (118724,
    118783); (119030, 119039); (119079, 119080); (119155, 119162); (119275,
    119295); (119366, 119519); (119540, 119551); (119639, 119647); (119673,
    119807); (119893, 119893); (119965, 119965); (119968, 119969); (119971,
    119972); (119975, 119976); (119981, 119981); (119994, 119994); (119996,
    119996); (120004, 120004); (120070, 120070); (120075, 120076); (120085,
    120085); (120093, 120093); (120122, 120122); (120127, 120127); (120133,
    120133); (120135, 120137); (120145, 120145); (120486, 120487); (120780,
    120781); (121484, 121498); (121504, 121504); (121520, 122623); (122655,
    122879); (122887, 122887); (122905, 122906); (122914, 122914); (122917,
    122917); (122923, 123135); (123181, 123183); (123198, 123199); (123210,
    123213); (123216, 123535); (123567, 123583); (123642, 123646); (123648,
    124895); (124903, 124903); (124908, 124908); (124911, 124911); (124927,
    124927); (125125, 125126); (125143, 125183); (125260, 125263); (125274,
    125277); (125280, 126064); (126133, 126208); (126270, 126463); (126468,
    126468); (126496, 126496); (126499, 126499); (126501, 126502); (126504,
    126504); (126515, 126515); (126520, 126520); (126522, 126522); (126524,
    126529); (126531, 126534); (126536, 126536); (126538, 126538); (126540,
    126540); (126544, 126544); (126547, 126547); (126549, 126550); (126552,
    126552); (126554, 126554); (126556, 126556); (126558, 126558); (126560,
    126560); (126563, 126563); (126565, 126566); (126571, 126571); (126579,
    126579); (126584, 126584); (126589, 126589); (126591, 126591); (126602,
    126602); (126620, 126624); (126628, 126628); (126634, 126634); (126652,
    126703); (126706, 126975); (127020, 127023); (127124, 127135); (127151,
    127152); (127168, 127168); (127184, 127184); (127222, 127231); (127406,
    127461); (127491, 127503); (127548, 127551); (127561, 127567); (127570,
    127583); (127590, 127743); (128728, 128732); (128749, 128751); (128765,
    128767); (128884, 128895); (128985, 128991); (129004, 129007); (129009,
    129023); (129036, 129039); (129096, 129103); (129114, 129119); (129160,
    129167); (129198, 129199); (129202, 129279); (129620, 129631); (129646,
    129647); (129653, 129655); (129661, 129663); (129671, 129679); (129709,
    129711); (129723, 129727); (129734, 129743); (129754, 129759); (129768,
    129775); (129783, 129791); (129939, 129939); (129995, 130031); (130042,
    131071); (173792, 173823); (177977, 177983); (178206, 178207); (183970,
    183983); (191457, 194559); (195102, 196607); (201547, 917759); (918000,
    1114111) ].

Definition is_printable (c : char) : bool :=
  negb (existsb (fun range => (fst range <=? c) && (c <=? snd range))
                unprintable_ranges).

(** [width] lower-case hexadecimal digits of [n]. *)
Fixpoint hex (width : nat) (n : N) : str :=
  match width with
  | O => []
  | S width' => hex width' (n / 16) ++ [hex_digit (n mod 16)]
  end.

(** One character of [repr(s)], [quote] being the quote chosen. *)
Definition repr_char (quote c : char) : str :=
  if (c =? quote) || (c =? 92) then [92; c]
  else if c =? 9 then [92; 116]
  else if c =? 10 then [92; 110]
  else if c =? 13 then [92; 114]
  else if (c <? 32) || (c =? 127) then [92; 120] ++ hex 2 c
  else if c <? 127 then [c]
  else if is_printable c then [c]
  else if c <=? 255 then [92; 120] ++ hex 2 c
  else if c <=? 65535 then [92; 117] ++ hex 4 c
  else [92; 85] ++ hex 8 c.

(** [repr(s)]: between single quotes, or between double quotes when [s]
    holds a single quote and no double quote. *)
Definition repr (s : str) : str :=
  let quote :=
    if existsb (fun c => c =? 39) s && negb (existsb is_quote s) then dquote
    else 39 in
  [quote] ++ flat_map (repr_char quote) s ++ [quote].

Definition decimal (n : nat) : str := py (NilZero.string_of_uint (Nat.to_uint n)).

(** The digits of a token that [int] refuses for having too many of them. *)
Definition too_many_digits (token : str) : option nat :=
  let '(_, body) := sign (dropwhile c_isspace (to_ascii token)) in
  match body with
  | [] => None
  | c :: _ =>
      if is_underscore c then None
      else match scan_digits body 0 O 0 with
           | Some (count, _, _) =>
               if (int_max_str_digits <? count)%nat then Some count else None
           | None => None
           end
  end.

(** A runtime for the examples: every float written as zero, [str(e)] as
    CPython 3.11 writes it for the exceptions of the model, an upstream that is
    down and one that serves a given text. *)
Definition repr_zero (f : pyfloat) : string := "0.0"%string.

Definition describe (e : exception) : str :=
  match e with
  | ValueError_float token => py "could not convert string to float: " ++ repr token
  | ValueError_int token =>
      match too_many_digits token with
      | Some count =>
          py "Exceeds the limit (" ++ decimal int_max_str_digits
          ++ py " digits) for integer string conversion: value has "
          ++ decimal count
          ++ py " digits; use sys.set_int_max_str_digits() to increase the limit"
      | None =>
          py "invalid literal for int() with base 10: " ++ firstn 200 (repr token)
      end
  | FetchError description => description
  | UnicodeEncodeError text start stop =>
      py "'utf-8' codec can't encode character"
      ++ (if (stop =? S start)%nat then
            let c := nth start text 0 in
            py " '" ++ (if c <=? 255 then [92; 120] ++ hex 2 c
                        else if c <=? 65535 then [92; 117] ++ hex 4 c
                        else [92; 85] ++ hex 8 c)
            ++ py "' in position " ++ decimal start
          else
            py "s in position " ++ decimal start ++ py "-" ++ decimal (pred stop))
      ++ py ": surrogates not allowed"
  | ConnectionError description => description
  end.

Definition upstream_down (address : str) : result str :=
  Raise (FetchError (py "timed out")).

Definition upstream_serving (content : str) (address : str) : result str :=
  Ok content.

(** A connection on which every write of a body raises [e]. *)
Definition writes_fail (e : exception) (trace : list call) (c : call)
  : option exception :=
  match c with
  | write _ => Some e
  | _ => None
  end.

(** A method lets through only what a call on the connection raised. *)
Definition raises_only_from (transport : list call -> call -> option exception)
           {A : Type} (h : handler A) : Prop :=
  forall trace e trace',
    h trace = (Raise e, trace') -> exists t c, transport t c = Some e.

(** The three responses, as traces of calls. *)
Definition json_content_type : call :=
  send_header (py "Content-Type") (py "application/json; charset=utf-8").

Definition response_200 (body : bytes) : list call :=
  [ send_response 200; json_content_type;
    send_header (py "Access-Control-Allow-Origin") (py "*");
    end_headers; write body ].

Definition response_404 : list call :=
  [ send_response 404;
    send_header (py "Content-Type") (py "text/plain; charset=utf-8");
    end_headers;
    write (py "Ruta no encontrada. Use /air para obtener datos Wi-Fi.") ].

Definition response_500 (body : bytes) : list call :=
  [ send_response 500; json_content_type; end_headers; write body ].

(** The compact JSON object with the one key [error]. *)
Definition error_body (message : str) : bytes :=
  py "{" ++ dumps_str (py "error") ++ py ": " ++ dumps_str message ++ py "}".

(** The positions copied as text: index, attribute, default. *)
Definition text_positions : list (nat * str * str) :=
  [ (0%nat, py "bss", py "");
    (1%nat, py "tsf", py "");
    (4%nat, py "capa", py "0x0");
    (6%nat, py "ssid", py "");
    (7%nat, py "ht_capa", py "0x0");
    (9%nat, py "vht_capa", py "0x0");
    (10%nat, py "he_capa", py "0x0");
    (11%nat, py "he_phy_capa", py "");
    (12%nat, py "encryption", py "");
    (13%nat, py "cipher", py "");
    (14%nat, py "suite", py "") ].

(** What kind of JSON value an attribute holds. *)
Inductive kind := Text | Float | Int.

Definition kind_of (v : value) : kind :=
  match v with
  | VStr _ => Text
  | VFloat _ => Float
  | VInt _ => Int
  end.

Definition attribute_kinds : list kind :=
  [ Text; Text; Float; Int; Text; Float; Text; Text; Int; Text; Text; Text;
    Text; Text; Text ].

(** What the pattern can match: a non-empty plain run or a quoted span. *)
Definition token (t : str) : Prop :=
  (t <> [] /\ forallb plain t = true)
  \/ (exists inner, forallb unquote inner = true /\ t = quoted inner).

(** [t] is a contiguous piece of [s]. *)
Definition substring (t s : str) : Prop :=
  exists before after, s = before ++ t ++ after.

(** Printable ASCII: from the blank to the tilde. *)
Definition printable (c : N) : Prop := 32 <= c <= 126.

(** A character between fields that is in no field: a space or a comma. *)
Definition separator (c : char) : bool := is_space c || is_comma c.

Definition carriage_return : char := 13.

(** A response: the status, the headers, the end of the headers and one
    write of the body. *)
Definition response (code : N) (headers : list (str * str)) (body : bytes)
  : list call :=
  send_response code
  :: map (fun header => send_header (fst header) (snd header)) headers
  ++ [end_headers; write body].

(** ** Strings: [span], [dropwhile], [strip] *)

Lemma is_quote_spec c : is_quote c = true <-> c = dquote.
Proof. unfold is_quote. apply N.eqb_eq. Qed.

Lemma is_comma_spec c : is_comma c = true <-> c = comma.
Proof. unfold is_comma. apply N.eqb_eq. Qed.

Lemma plain_unquote c : plain c = true -> unquote c = true.
Proof.
  unfold plain, unquote. destruct (is_comma c), (is_quote c); simpl; congruence.
Qed.

Lemma space_plain c : is_space c = true -> plain c = true.
Proof.
  unfold plain, is_comma, is_quote, comma, dquote.
  destruct (N.eqb_spec c 44) as [->|_]; [vm_compute; discriminate|].
  destruct (N.eqb_spec c 34) as [->|_]; [vm_compute; discriminate|].
  reflexivity.
Qed.

Lemma span_app p s : fst (span p s) ++ snd (span p s) = s.
Proof.
  induction s as [|c s IH]; simpl; [reflexivity|].
  destruct (p c); [|reflexivity].
  destruct (span p s) as [run after]; simpl in *. now rewrite IH.
Qed.

Lemma span_all p s : forallb p (fst (span p s)) = true.
Proof.
  induction s as [|c s IH]; simpl; [reflexivity|].
  destruct (p c) eqn:E; [|reflexivity].
  destruct (span p s) as [run after]; simpl in *. now rewrite E.
Qed.

Lemma span_stop p s c after : snd (span p s) = c :: after -> p c = false.
Proof.
  induction s as [|x s IH]; simpl; [discriminate|].
  destruct (p x) eqn:E.
  - destruct (span p s) as [run after']; simpl in *. exact IH.
  - simpl. intros [= -> _]. exact E.
Qed.

Lemma span_length p s : (length (snd (span p s)) <= length s)%nat.
Proof.
  rewrite <- (span_app p s) at 2. rewrite length_app. lia.
Qed.

(** [span] does not look past the first character that fails [p]. *)
Lemma span_append p s rest :
  match rest with [] => True | c :: _ => p c = false end ->
  span p (s ++ rest) = (fst (span p s), snd (span p s) ++ rest).
Proof.
  intros Hrest. induction s as [|x s IH]; simpl.
  - destruct rest as [|c rest]; [reflexivity|]. simpl. now rewrite Hrest.
  - destruct (p x); [|reflexivity].
    rewrite IH. now destruct (span p s).
Qed.

Lemma span_append_stop p s rest :
  snd (span p s) <> [] ->
  span p (s ++ rest) = (fst (span p s), snd (span p s) ++ rest).
Proof.
  induction s as [|x s IH]; simpl; [congruence|].
  destruct (p x); [|reflexivity].
  destruct (span p s) as [run after] eqn:E; simpl in *.
  intros H. now rewrite (IH H).
Qed.

Lemma span_forallb p s : forallb p s = true -> span p s = (s, []).
Proof.
  induction s as [|c s IH]; simpl; [reflexivity|].
  destruct (p c); simpl; [|discriminate].
  intros H. now rewrite (IH H).
Qed.

Lemma dropwhile_all p s : forallb p s = true -> dropwhile p s = [].
Proof.
  induction s as [|c s IH]; simpl; [reflexivity|].
  destruct (p c); simpl; [exact IH|discriminate].
Qed.

Lemma dropwhile_nil_all p s : dropwhile p s = [] -> forallb p s = true.
Proof.
  induction s as [|c s IH]; simpl; [reflexivity|].
  destruct (p c); simpl; [exact IH|discriminate].
Qed.

Lemma dropwhile_incl p s c : In c (dropwhile p s) -> In c s.
Proof.
  induction s as [|x s IH]; simpl; [tauto|].
  destruct (p x); [right; auto|simpl; tauto].
Qed.

Lemma dropwhile_app_stop p s rest :
  dropwhile p s <> [] -> dropwhile p (s ++ rest) = dropwhile p s ++ rest.
Proof.
  induction s as [|x s IH]; simpl; [congruence|].
  destruct (p x); [exact IH|reflexivity].
Qed.

Lemma dropwhile_app_all p s rest :
  forallb p s = true -> dropwhile p (s ++ rest) = dropwhile p rest.
Proof.
  induction s as [|x s IH]; simpl; [reflexivity|].
  destruct (p x); simpl; [exact IH|discriminate].
Qed.

Lemma strip_incl p s c : In c (strip p s) -> In c s.
Proof.
  unfold strip, rstrip, lstrip. intros H.
  apply in_rev, dropwhile_incl in H. apply in_rev in H.
  now apply dropwhile_incl in H.
Qed.

Lemma strip_nil p : strip p [] = [].
Proof. reflexivity. Qed.

Lemma strip_all p s : forallb p s = true -> strip p s = [].
Proof.
  intros H. unfold strip, lstrip. now rewrite (dropwhile_all _ _ H).
Qed.

Lemma strip_nil_all p s : strip p s = [] -> forallb p s = true.
Proof.
  unfold strip, rstrip, lstrip. intros H.
  assert (H1 : dropwhile p (rev (dropwhile p s)) = []).
  { apply (f_equal (@rev char)) in H. now rewrite rev_involutive in H. }
  apply dropwhile_nil_all in H1.
  assert (H2 : forall x, In x (dropwhile p s) -> p x = true).
  { intros x Hx. apply (proj1 (forallb_forall _ _) H1). now apply in_rev in Hx. }
  clear H H1. induction s as [|x s IH]; simpl in *; [reflexivity|].
  destruct (p x) eqn:E; simpl in *; [auto|].
  rewrite <- E. apply H2. now left.
Qed.

(** A character the predicate accepts, at the front or at the back, does
    not change what [strip] leaves. *)
Lemma strip_cons p c s : p c = true -> strip p (c :: s) = strip p s.
Proof. intros H. unfold strip, lstrip. simpl. now rewrite H. Qed.

Lemma strip_snoc p c s : p c = true -> strip p (s ++ [c]) = strip p s.
Proof.
  intros H. unfold strip, rstrip, lstrip.
  destruct (dropwhile p s) as [|x t] eqn:E.
  - rewrite dropwhile_app_all by now apply dropwhile_nil_all.
    simpl. now rewrite H.
  - rewrite dropwhile_app_stop by congruence. rewrite E.
    rewrite rev_app_distr. simpl. now rewrite H.
Qed.

(** ** The tokenizer *)

Lemma span_plain_shorter c rest :
  plain c = true -> (length (snd (span plain (c :: rest))) <= length rest)%nat.
Proof.
  intros H. simpl. rewrite H.
  pose proof (span_length plain rest). now destruct (span plain rest).
Qed.

Lemma span_unquote_shorter rest inner q after :
  span unquote rest = (inner, q :: after) -> (length after < length rest)%nat.
Proof.
  intros H. pose proof (span_length unquote rest) as L.
  rewrite H in L. simpl in L. lia.
Qed.

(** The result of [scan] does not depend on the fuel, once there is enough. *)
Lemma scan_enough n : forall m s,
  (length s <= n)%nat -> (length s <= m)%nat -> scan n s = scan m s.
Proof.
  induction n as [|n IH]; intros m s Hn Hm.
  - destruct s; [now destruct m|simpl in Hn; lia].
  - destruct m as [|m]; [destruct s; [reflexivity|simpl in Hm; lia]|].
    destruct s as [|c rest]; [reflexivity|]. simpl in Hn, Hm.
    cbn [scan]. destruct (plain c) eqn:Ep.
    + pose proof (span_plain_shorter c rest Ep) as L.
      destruct (span plain (c :: rest)) as [run after]. simpl in L.
      f_equal. apply IH; lia.
    + destruct (is_quote c).
      * destruct (span unquote rest) as [inner [|q after]] eqn:Es.
        -- apply IH; lia.
        -- apply span_unquote_shorter in Es. f_equal. apply IH; lia.
      * apply IH; lia.
Qed.

Lemma re_findall_nil : re_findall [] = [].
Proof. reflexivity. Qed.

Lemma re_findall_plain c rest :
  plain c = true ->
  re_findall (c :: rest)
  = (c :: fst (span plain rest)) :: re_findall (snd (span plain rest)).
Proof.
  intros H. unfold re_findall. cbn [length scan]. rewrite H.
  pose proof (span_plain_shorter c rest H) as L. simpl in L |- *.
  rewrite H in L |- *. destruct (span plain rest) as [run after]. simpl in *.
  f_equal. apply scan_enough; lia.
Qed.

Lemma re_findall_comma c rest :
  is_comma c = true -> re_findall (c :: rest) = re_findall rest.
Proof.
  intros H. unfold re_findall. cbn [length scan].
  unfold plain. rewrite H. simpl.
  apply is_comma_spec in H. subst c. reflexivity.
Qed.

Lemma re_findall_quote c rest :
  is_quote c = true ->
  re_findall (c :: rest)
  = match span unquote rest with
    | (inner, q :: after) => (c :: inner ++ [q]) :: re_findall after
    | (_, []) => re_findall rest
    end.
Proof.
  intros H. unfold re_findall. cbn [length scan].
  unfold plain. rewrite H, orb_true_r. simpl.
  destruct (span unquote rest) as [inner [|q after]] eqn:Es; [reflexivity|].
  apply span_unquote_shorter in Es. f_equal. apply scan_enough; lia.
Qed.

Lemma char_cases c :
  plain c = true \/ is_comma c = true \/ is_quote c = true.
Proof.
  unfold plain. destruct (is_comma c), (is_quote c); simpl; auto.
Qed.

(** Induction along the scan: a plain run, a comma, a quoted span, a double
    quote that nothing closes. *)
Lemma scan_ind (P : str -> Prop) :
  P [] ->
  (forall c rest, plain c = true -> P (snd (span plain rest)) -> P (c :: rest)) ->
  (forall c rest, is_comma c = true -> P rest -> P (c :: rest)) ->
  (forall c rest inner q after, is_quote c = true ->
     span unquote rest = (inner, q :: after) -> P after -> P (c :: rest)) ->
  (forall c rest inner, is_quote c = true ->
     span unquote rest = (inner, []) -> P rest -> P (c :: rest)) ->
  forall s, P s.
Proof.
  intros Hnil Hplain Hcomma Hquoted Hopen s.
  remember (length s) as n eqn:En.
  revert s En. induction n as [n IH] using lt_wf_ind. intros s En.
  destruct s as [|c rest]; [exact Hnil|]. simpl in En.
  destruct (char_cases c) as [H|[H|H]].
  - apply Hplain; [exact H|].
    apply (IH (length (snd (span plain rest)))); [|reflexivity].
    pose proof (span_length plain rest). lia.
  - apply Hcomma; [exact H|]. apply (IH (length rest)); [lia|reflexivity].
  - destruct (span unquote rest) as [inner [|q after]] eqn:Es.
    + eapply Hopen; eauto. apply (IH (length rest)); [lia|reflexivity].
    + eapply Hquoted; eauto.
      apply (IH (length after)); [|reflexivity].
      apply span_unquote_shorter in Es. lia.
Qed.

(** A token is a non-empty run of plain characters or a quoted span without
    a double quote inside. *)
Lemma token_shape line t :
  In t (re_findall line) ->
  (t <> [] /\ forallb plain t = true)
  \/ (exists inner, forallb unquote inner = true /\ t = dquote :: inner ++ [dquote]).
Proof.
  revert t. induction line as [|c rest Hc IH|c rest Hc IH
                               |c rest inner q after Hc Es IH
                               |c rest inner Hc Es IH] using scan_ind; intros t.
  - intros [].
  - rewrite (re_findall_plain _ _ Hc). intros [<-|H]; [|auto].
    left. split; [discriminate|]. simpl. now rewrite Hc, span_all.
  - rewrite (re_findall_comma _ _ Hc). auto.
  - rewrite (re_findall_quote _ _ Hc), Es. intros [<-|H]; [|auto].
    right. exists inner. split.
    + pose proof (span_all unquote rest) as A. now rewrite Es in A.
    + apply is_quote_spec in Hc. subst c.
      pose proof (span_stop unquote rest q after) as S. rewrite Es in S.
      specialize (S eq_refl). unfold unquote in S.
      apply negb_false_iff, is_quote_spec in S. now subst q.
  - rewrite (re_findall_quote _ _ Hc), Es. auto.
Qed.

Lemma quote_count_app a b : quote_count (a ++ b) = (quote_count a + quote_count b)%nat.
Proof. unfold quote_count. now rewrite filter_app, length_app. Qed.

Lemma quote_count_unquote s : forallb unquote s = true -> quote_count s = O.
Proof.
  unfold quote_count, unquote. induction s as [|c s IH]; simpl; [reflexivity|].
  destruct (is_quote c); simpl; [discriminate|exact IH].
Qed.

Lemma forallb_plain_unquote s : forallb plain s = true -> forallb unquote s = true.
Proof.
  rewrite !forallb_forall. intros H c Hc. apply plain_unquote. auto.
Qed.

Lemma quote_count_cons c s :
  quote_count (c :: s) = ((if is_quote c then 1 else 0) + quote_count s)%nat.
Proof. unfold quote_count. simpl. now destruct (is_quote c). Qed.

Lemma plain_not_quote c : plain c = true -> is_quote c = false.
Proof. unfold plain. destruct (is_comma c), (is_quote c); simpl; congruence. Qed.

Lemma comma_not_quote c : is_comma c = true -> is_quote c = false.
Proof. intros H. apply is_comma_spec in H. now subst c. Qed.

(** After a prefix whose double quotes pair up, and before a comma, a double
    quote or the end, the scan starts afresh. *)
Lemma re_findall_app a rest :
  Nat.even (quote_count a) = true ->
  match rest with [] => True | c :: _ => plain c = false end ->
  re_findall (a ++ rest) = re_findall a ++ re_findall rest.
Proof.
  intros Heven Hrest. revert Heven.
  induction a as [|c r Hc IH|c r Hc IH|c r inner q after Hc Es IH|c r inner Hc Es IH]
    using scan_ind; intros Heven.
  - reflexivity.
  - simpl app. rewrite !(re_findall_plain _ _ Hc).
    rewrite (span_append plain r rest Hrest). simpl. f_equal. apply IH.
    rewrite quote_count_cons, (plain_not_quote _ Hc) in Heven. simpl in Heven.
    rewrite <- (span_app plain r), quote_count_app in Heven.
    rewrite (quote_count_unquote (fst (span plain r))) in Heven; [exact Heven|].
    apply forallb_plain_unquote, span_all.
  - simpl app. rewrite !(re_findall_comma _ _ Hc). apply IH.
    now rewrite quote_count_cons, (comma_not_quote _ Hc) in Heven.
  - simpl app. rewrite !(re_findall_quote _ _ Hc).
    rewrite (span_append_stop unquote r rest) by (rewrite Es; discriminate).
    rewrite Es. simpl. f_equal. apply IH.
    rewrite quote_count_cons, Hc in Heven.
    pose proof (span_app unquote r) as A. rewrite Es in A. simpl in A.
    rewrite <- A, quote_count_app, quote_count_cons in Heven.
    pose proof (span_all unquote r) as U. rewrite Es in U. simpl in U.
    rewrite (quote_count_unquote _ U) in Heven.
    pose proof (span_stop unquote r q after) as S. rewrite Es in S.
    specialize (S eq_refl). unfold unquote in S. apply negb_false_iff in S.
    rewrite S in Heven. simpl in Heven. exact Heven.
  - exfalso. rewrite quote_count_cons, Hc in Heven.
    pose proof (span_app unquote r) as A. rewrite Es in A. simpl in A.
    rewrite app_nil_r in A. subst inner.
    pose proof (span_all unquote r) as U. rewrite Es in U. simpl in U.
    rewrite (quote_count_unquote _ U) in Heven. discriminate.
Qed.

Lemma re_findall_open_quote b :
  forallb unquote b = true -> re_findall (dquote :: b) = re_findall b.
Proof.
  intros H. rewrite re_findall_quote by reflexivity.
  now rewrite (span_forallb _ _ H).
Qed.

Lemma re_findall_quoted inner b :
  forallb unquote inner = true ->
  re_findall (dquote :: inner ++ dquote :: b)
  = (dquote :: inner ++ [dquote]) :: re_findall b.
Proof.
  intros H. rewrite re_findall_quote by reflexivity.
  rewrite (span_append unquote inner (dquote :: b)) by reflexivity.
  now rewrite (span_forallb _ _ H).
Qed.

Lemma re_findall_all_plain s :
  forallb plain s = true -> re_findall s = match s with [] => [] | _ => [s] end.
Proof.
  destruct s as [|c s]; [reflexivity|]. simpl. intros H.
  apply andb_true_iff in H as [Hc Hs].
  rewrite (re_findall_plain _ _ Hc), (span_forallb _ _ Hs). reflexivity.
Qed.

(** ** Cleaning *)

Lemma cleaned_fields_tokens line :
  cleaned_fields line = map clean (filter (fun t => negb (blank t)) (re_findall line)).
Proof.
  unfold cleaned_fields, blank. f_equal. apply filter_ext.
  intros t. now rewrite negb_involutive.
Qed.

Lemma cleaned_fields_app a rest :
  Nat.even (quote_count a) = true ->
  match rest with [] => True | c :: _ => plain c = false end ->
  cleaned_fields (a ++ rest) = cleaned_fields a ++ cleaned_fields rest.
Proof.
  intros He Hr. unfold cleaned_fields.
  now rewrite (re_findall_app _ _ He Hr), filter_app, map_app.
Qed.

(** Stripping the quotes of a quoted span leaves what is between them. *)
Lemma strip_quotes_quoted inner :
  forallb unquote inner = true ->
  strip is_quote (dquote :: inner ++ [dquote]) = inner.
Proof.
  intros H. rewrite strip_cons by reflexivity.
  rewrite strip_snoc by reflexivity.
  unfold strip, rstrip, lstrip.
  assert (D : forall s, forallb unquote s = true -> dropwhile is_quote s = s).
  { intros [|x s]; simpl; [reflexivity|]. unfold unquote at 1.
    destruct (is_quote x); simpl; [discriminate|reflexivity]. }
  rewrite (D _ H). rewrite D, rev_involutive; [reflexivity|].
  apply forallb_forall. intros c Hc. apply in_rev in Hc.
  exact (proj1 (forallb_forall _ _) H c Hc).
Qed.

Lemma strip_quotes_plain t :
  forallb plain t = true -> strip is_quote t = t.
Proof.
  intros H. apply forallb_plain_unquote in H.
  unfold strip, rstrip, lstrip.
  assert (D : forall s, forallb unquote s = true -> dropwhile is_quote s = s).
  { intros [|x s]; simpl; [reflexivity|]. unfold unquote at 1.
    destruct (is_quote x); simpl; [discriminate|reflexivity]. }
  rewrite (D _ H). rewrite D, rev_involutive; [reflexivity|].
  apply forallb_forall. intros c Hc. apply in_rev in Hc.
  exact (proj1 (forallb_forall _ _) H c Hc).
Qed.

(** A quoted span is never blank. *)
Lemma quoted_not_blank inner : blank (dquote :: inner ++ [dquote]) = false.
Proof.
  unfold blank. destruct (strip is_space (dquote :: inner ++ [dquote])) eqn:E;
    [|reflexivity].
  apply strip_nil_all in E. simpl in E. discriminate.
Qed.

Lemma clean_quoted inner :
  forallb unquote inner = true ->
  clean (dquote :: inner ++ [dquote]) = strip is_space inner.
Proof. intros H. unfold clean. now rewrite strip_quotes_quoted. Qed.

Lemma clean_plain t : forallb plain t = true -> clean t = strip is_space t.
Proof. intros H. unfold clean. now rewrite strip_quotes_plain. Qed.

(** No cleaned field holds a double quote. *)
Lemma cleaned_fields_quote_free line f :
  In f (cleaned_fields line) -> ~ In dquote f.
Proof.
  unfold cleaned_fields. intros H. apply in_map_iff in H as (t & <- & Ht).
  apply filter_In in Ht as [Ht _].
  apply token_shape in Ht as [[_ Hp]|(inner & Hu & ->)].
  - rewrite (clean_plain _ Hp). intros Hq. apply strip_incl in Hq.
    pose proof (proj1 (forallb_forall _ _) Hp _ Hq) as C. discriminate.
  - rewrite (clean_quoted _ Hu). intros Hq. apply strip_incl in Hq.
    pose proof (proj1 (forallb_forall _ _) Hu _ Hq) as C. discriminate.
Qed.

(** ** One line *)

Lemma nth_error_present (fields : list str) i token :
  nth_error fields i = Some token ->
  (i <? length fields)%nat = true /\ nth i fields [] = token.
Proof.
  intros H. split.
  - apply Nat.ltb_lt, nth_error_Some. congruence.
  - now apply nth_error_nth.
Qed.

Lemma nth_error_absent (fields : list str) i :
  (length fields <= i)%nat <-> nth_error fields i = None.
Proof. symmetry. apply nth_error_None. Qed.

Lemma text_field_absent fields i default :
  (length fields <= i)%nat -> text_field fields i default = VStr default.
Proof.
  intros H. unfold text_field.
  now destruct (Nat.ltb_spec i (length fields)); [lia|].
Qed.

Lemma float_field_spec fields i :
  float_field fields i
  = match nth_error fields i with
    | Some (c :: token) => float_of (c :: token)
    | _ => Ok (VFloat float_zero)
    end.
Proof.
  unfold float_field, float_of.
  destruct (nth_error fields i) as [token|] eqn:E.
  - apply nth_error_present in E as [-> ->]. now destruct token.
  - apply nth_error_absent in E.
    now destruct (Nat.ltb_spec i (length fields)); [lia|].
Qed.

Lemma int_field_spec fields i :
  int_field fields i
  = match nth_error fields i with
    | Some (c :: token) => int_of (c :: token)
    | _ => Ok (VInt 0)
    end.
Proof.
  unfold int_field, int_of.
  destruct (nth_error fields i) as [token|] eqn:E.
  - apply nth_error_present in E as [-> ->]. now destruct token.
  - apply nth_error_absent in E.
    now destruct (Nat.ltb_spec i (length fields)); [lia|].
Qed.

Lemma float_field_raise fields i e :
  float_field fields i = Raise e ->
  exists token, nth_error fields i = Some token /\ token <> []
                /\ float_of token = Raise e.
Proof.
  rewrite float_field_spec.
  destruct (nth_error fields i) as [[|c token]|]; try discriminate.
  intros H. exists (c :: token). repeat split; [discriminate|exact H].
Qed.

Lemma int_field_raise fields i e :
  int_field fields i = Raise e ->
  exists token, nth_error fields i = Some token /\ token <> []
                /\ int_of token = Raise e.
Proof.
  rewrite int_field_spec.
  destruct (nth_error fields i) as [[|c token]|]; try discriminate.
  intros H. exists (c :: token). repeat split; [discriminate|exact H].
Qed.

Lemma float_field_absent fields i :
  (length fields <= i)%nat -> float_field fields i = Ok (VFloat float_zero).
Proof.
  intros H. rewrite float_field_spec.
  now rewrite (proj1 (nth_error_absent fields i) H).
Qed.

Lemma int_field_absent fields i :
  (length fields <= i)%nat -> int_field fields i = Ok (VInt 0).
Proof.
  intros H. rewrite int_field_spec.
  now rewrite (proj1 (nth_error_absent fields i) H).
Qed.

(** The record of a line whose four conversions gave [freq], [beacon],
    [signal] and [primary_channel]. *)
Lemma parse_line_ok line record :
  _parse_wifi_line line = Ok record ->
  exists freq beacon signal primary_channel,
    float_field (cleaned_fields line) 2 = Ok freq
    /\ int_field (cleaned_fields line) 3 = Ok beacon
    /\ float_field (cleaned_fields line) 5 = Ok signal
    /\ int_field (cleaned_fields line) 8 = Ok primary_channel
    /\ record =
       [ (py "bss", text_field (cleaned_fields line) 0 (py ""));
         (py "tsf", text_field (cleaned_fields line) 1 (py ""));
         (py "freq", freq);
         (py "beacon", beacon);
         (py "capa", text_field (cleaned_fields line) 4 (py "0x0"));
         (py "signal", signal);
         (py "ssid", text_field (cleaned_fields line) 6 (py ""));
         (py "ht_capa", text_field (cleaned_fields line) 7 (py "0x0"));
         (py "primary_channel", primary_channel);
         (py "vht_capa", text_field (cleaned_fields line) 9 (py "0x0"));
         (py "he_capa", text_field (cleaned_fields line) 10 (py "0x0"));
         (py "he_phy_capa", text_field (cleaned_fields line) 11 (py ""));
         (py "encryption", text_field (cleaned_fields line) 12 (py ""));
         (py "cipher", text_field (cleaned_fields line) 13 (py ""));
         (py "suite", text_field (cleaned_fields line) 14 (py "")) ].
Proof.
  unfold _parse_wifi_line. cbv zeta.
  destruct (float_field (cleaned_fields line) 2) as [freq|]; [|discriminate].
  destruct (int_field (cleaned_fields line) 3) as [beacon|]; [|discriminate].
  destruct (float_field (cleaned_fields line) 5) as [signal|]; [|discriminate].
  destruct (int_field (cleaned_fields line) 8) as [channel|]; [|discriminate].
  cbn [bind]. intros [= <-]. now exists freq, beacon, signal, channel.
Qed.

Lemma parse_line_raise line e :
  _parse_wifi_line line = Raise e ->
  exists i key conv token,
    In (i, key, conv) numeric_positions
    /\ nth_error (cleaned_fields line) i = Some token /\ token <> []
    /\ conv token = Raise e.
Proof.
  unfold _parse_wifi_line, numeric_positions. cbv zeta.
  destruct (float_field (cleaned_fields line) 2) as [freq|e2] eqn:E2; cbn [bind].
  2:{ intros [= <-]. apply float_field_raise in E2 as (t & ? & ? & ?).
      exists 2%nat, (py "freq"), float_of, t. simpl. auto. }
  destruct (int_field (cleaned_fields line) 3) as [beacon|e3] eqn:E3; cbn [bind].
  2:{ intros [= <-]. apply int_field_raise in E3 as (t & ? & ? & ?).
      exists 3%nat, (py "beacon"), int_of, t. simpl. auto. }
  destruct (float_field (cleaned_fields line) 5) as [signal|e5] eqn:E5; cbn [bind].
  2:{ intros [= <-]. apply float_field_raise in E5 as (t & ? & ? & ?).
      exists 5%nat, (py "signal"), float_of, t. simpl. auto. }
  destruct (int_field (cleaned_fields line) 8) as [channel|e8] eqn:E8; cbn [bind].
  2:{ intros [= <-]. apply int_field_raise in E8 as (t & ? & ? & ?).
      exists 8%nat, (py "primary_channel"), int_of, t. simpl. auto 6. }
  discriminate.
Qed.

Lemma parse_line_nonempty line record :
  _parse_wifi_line line = Ok record -> dict_truthy record = true.
Proof.
  intros H. apply parse_line_ok in H as (? & ? & ? & ? & _ & _ & _ & _ & ->).
  reflexivity.
Qed.

(** ** A whole text *)

Lemma traverse_ok {A B : Type} (f : A -> result B) l rs :
  traverse f l = Ok rs -> Forall2 (fun a b => f a = Ok b) l rs.
Proof.
  revert rs. induction l as [|a l IH]; simpl; intros rs.
  - intros [= <-]. constructor.
  - destruct (f a) as [b|] eqn:E; [|discriminate]. cbn [bind].
    destruct (traverse f l) as [bs|]; [|discriminate]. cbn [bind].
    intros [= <-]. constructor; auto.
Qed.

Lemma traverse_raise {A B : Type} (f : A -> result B) l e :
  traverse f l = Raise e -> exists a, In a l /\ f a = Raise e.
Proof.
  induction l as [|a l IH]; simpl; [discriminate|].
  destruct (f a) as [b|e'] eqn:E; cbn [bind].
  - destruct (traverse f l) as [bs|e'']; cbn [bind]; [discriminate|].
    intros [= <-]. destruct (IH eq_refl) as (x & ? & ?). eauto.
  - intros [= <-]. eauto.
Qed.

Lemma traverse_fails {A B : Type} (f : A -> result B) l a e :
  In a l -> f a = Raise e -> exists e', traverse f l = Raise e'.
Proof.
  induction l as [|x l IH]; simpl; [tauto|].
  intros [->|H] Ha.
  - rewrite Ha. cbn [bind]. eauto.
  - destruct (f x); cbn [bind]; [|eauto].
    destruct (IH H Ha) as (e' & ->). cbn [bind]. eauto.
Qed.

(** The loop is [traverse] over the lines that are not blank. *)
Lemma parse_lines_traverse lines : forall networks,
  parse_lines lines networks
  = (records <- traverse _parse_wifi_line
                         (filter (fun line => negb (blank line)) lines) ;;
     Ok (networks ++ records)).
Proof.
  induction lines as [|line rest IH]; intros networks; simpl.
  - now rewrite app_nil_r.
  - unfold blank at 1. rewrite negb_involutive.
    destruct (truthy (strip is_space line)); simpl.
    + destruct (_parse_wifi_line line) as [network|e] eqn:E; cbn [bind];
        [|reflexivity].
      rewrite (parse_line_nonempty _ _ E), IH.
      destruct (traverse _ _); cbn [bind]; [|reflexivity].
      now rewrite <- app_assoc.
    + apply IH.
Qed.

Lemma parse_line_fields l l' :
  cleaned_fields l = cleaned_fields l' -> _parse_wifi_line l = _parse_wifi_line l'.
Proof. unfold _parse_wifi_line. now intros ->. Qed.

(** A space at the front of a line changes neither its fields nor whether
    it is blank. *)
Lemma cleaned_fields_lead_space c l :
  is_space c = true -> cleaned_fields (c :: l) = cleaned_fields l.
Proof.
  intros Hc. pose proof (space_plain _ Hc) as Hp.
  unfold cleaned_fields. rewrite (re_findall_plain _ _ Hp).
  destruct l as [|x l'].
  - simpl. rewrite strip_all by (simpl; now rewrite Hc). reflexivity.
  - destruct (plain x) eqn:Ex.
    + rewrite (re_findall_plain _ _ Ex). cbn [span]. rewrite Ex.
      destruct (span plain l') as [run after] eqn:Es. cbn [fst snd filter].
      rewrite (strip_cons is_space c (x :: run) Hc).
      destruct (truthy (strip is_space (x :: run))); [|reflexivity].
      cbn [map]. f_equal.
      assert (Hr : forallb plain (x :: run) = true).
      { simpl. rewrite Ex. pose proof (span_all plain l') as A.
        now rewrite Es in A. }
      rewrite (clean_plain (x :: run) Hr).
      rewrite clean_plain by (simpl; now rewrite Hp).
      now apply strip_cons.
    + cbn [span]. rewrite Ex. cbn [fst snd filter].
      rewrite strip_all by (simpl; now rewrite Hc). reflexivity.
Qed.

Lemma forallb_snoc (p : char -> bool) s c :
  forallb p (s ++ [c]) = forallb p s && p c.
Proof. rewrite forallb_app. simpl. now rewrite andb_true_r. Qed.

(** And so does a space at its end. *)
Lemma cleaned_fields_trail_space c (l : str) :
  is_space c = true -> cleaned_fields (l ++ [c]) = cleaned_fields l.
Proof.
  intros Hc. pose proof (space_plain _ Hc) as Hp.
  induction l as [|x r Hx IH|x r Hx IH|x r inner q after Hx Es IH|x r inner Hx Es IH]
    using scan_ind.
  - unfold cleaned_fields. simpl app. rewrite (re_findall_plain _ _ Hp). simpl.
    rewrite strip_all by (simpl; now rewrite Hc). reflexivity.
  - simpl app. unfold cleaned_fields in *.
    rewrite !(re_findall_plain _ _ Hx).
    destruct (snd (span plain r)) as [|y after] eqn:Es.
    + assert (Hr : forallb plain r = true).
      { pose proof (span_all plain r) as A. pose proof (span_app plain r) as B.
        rewrite Es, app_nil_r in B. now rewrite B in A. }
      rewrite (span_forallb plain (r ++ [c]))
        by (rewrite forallb_snoc, Hr, Hp; reflexivity).
      rewrite (span_forallb plain r Hr). cbn [fst snd filter].
      change (x :: r ++ [c]) with ((x :: r) ++ [c]).
      rewrite (strip_snoc is_space c (x :: r) Hc).
      destruct (truthy (strip is_space (x :: r))); [|reflexivity].
      cbn [map]. f_equal.
      rewrite clean_plain
        by (rewrite forallb_snoc; simpl; now rewrite Hx, Hr, Hp).
      rewrite clean_plain by (simpl; now rewrite Hx, Hr).
      now apply strip_snoc.
    + rewrite (span_append_stop plain r [c]) by (rewrite Es; discriminate).
      rewrite Es. cbn [fst snd filter].
      destruct (truthy _); cbn [map]; [f_equal|]; exact IH.
  - simpl app. unfold cleaned_fields in *.
    rewrite !(re_findall_comma _ _ Hx). exact IH.
  - simpl app. unfold cleaned_fields in *.
    rewrite !(re_findall_quote _ _ Hx).
    rewrite (span_append_stop unquote r [c]) by (rewrite Es; discriminate).
    rewrite Es. cbn [fst snd app filter].
    destruct (truthy _); cbn [map]; [f_equal|]; exact IH.
  - simpl app. unfold cleaned_fields in *.
    rewrite !(re_findall_quote _ _ Hx).
    assert (Hr : forallb unquote r = true).
    { pose proof (span_all unquote r) as A. pose proof (span_app unquote r) as B.
      rewrite Es in A, B. simpl in A, B. rewrite app_nil_r in B. now subst. }
    rewrite (span_forallb unquote (r ++ [c]))
      by (rewrite forallb_snoc, Hr, (plain_unquote _ Hp); reflexivity).
    rewrite Es. exact IH.
Qed.

Lemma blank_lead_space c l : is_space c = true -> blank (c :: l) = blank l.
Proof. intros H. unfold blank. now rewrite strip_cons. Qed.

Lemma blank_trail_space c l : is_space c = true -> blank (l ++ [c]) = blank l.
Proof. intros H. unfold blank. now rewrite strip_snoc. Qed.

(** What [traverse] gives on the lines that are not blank depends only on
    which lines are blank and on the fields of the others. *)
Lemma records_equiv lines lines' :
  Forall2 (fun l l' => blank l = blank l' /\ cleaned_fields l = cleaned_fields l')
          lines lines' ->
  traverse _parse_wifi_line (filter (fun l => negb (blank l)) lines)
  = traverse _parse_wifi_line (filter (fun l => negb (blank l)) lines').
Proof.
  induction 1 as [|l l' ls ls' [Hb Hf] _ IH]; [reflexivity|].
  simpl. rewrite <- Hb. destruct (blank l); simpl; [exact IH|].
  now rewrite (parse_line_fields _ _ Hf), IH.
Qed.

Lemma split_lines_cons s : exists l ls, split_lines s = l :: ls.
Proof.
  destruct s as [|c s]; simpl; [eauto|].
  destruct (is_newline c); [eauto|].
  destruct (split_lines s); eauto.
Qed.

Lemma newline_space c : is_newline c = true -> is_space c = true.
Proof. unfold is_newline. intros H. apply N.eqb_eq in H. now subst c. Qed.

Lemma records_lead_space c s :
  is_space c = true ->
  traverse _parse_wifi_line (nonblank_lines (c :: s))
  = traverse _parse_wifi_line (nonblank_lines s).
Proof.
  intros Hc. unfold nonblank_lines. simpl.
  destruct (is_newline c); [reflexivity|].
  destruct (split_lines_cons s) as (l & ls & ->).
  simpl. rewrite (blank_lead_space _ _ Hc).
  destruct (blank l); simpl; [reflexivity|].
  now rewrite (parse_line_fields _ _ (cleaned_fields_lead_space c l Hc)).
Qed.

Lemma split_lines_trail c s :
  is_newline c = false ->
  Forall2 (fun l l' => l' = l \/ l' = l ++ [c]) (split_lines s) (split_lines (s ++ [c])).
Proof.
  intros Hc. induction s as [|x s IH]; simpl.
  - rewrite Hc. constructor; [now right|constructor].
  - destruct (is_newline x).
    + constructor; [now left|exact IH].
    + destruct (split_lines_cons s) as (l & ls & E).
      destruct (split_lines_cons (s ++ [c])) as (l' & ls' & E').
      rewrite E, E' in *. apply Forall2_cons_iff in IH as [[->| ->] T];
        constructor; auto.
Qed.

Lemma split_lines_trail_newline s :
  split_lines (s ++ [newline]) = split_lines s ++ [[]].
Proof.
  induction s as [|x s IH]; simpl; [reflexivity|].
  destruct (is_newline x); [now rewrite IH|].
  rewrite IH. destruct (split_lines_cons s) as (l & ls & ->). reflexivity.
Qed.

Lemma records_trail_space c s :
  is_space c = true ->
  traverse _parse_wifi_line (nonblank_lines (s ++ [c]))
  = traverse _parse_wifi_line (nonblank_lines s).
Proof.
  intros Hc. unfold nonblank_lines.
  destruct (is_newline c) eqn:En.
  - apply N.eqb_eq in En. subst c. fold newline.
    rewrite split_lines_trail_newline, filter_app. simpl.
    now rewrite app_nil_r.
  - symmetry. apply records_equiv.
    eapply Forall2_impl; [|apply (split_lines_trail c s En)].
    intros l l' [->| ->]; [auto|].
    now rewrite blank_trail_space, cleaned_fields_trail_space.
Qed.

Lemma records_strip s :
  traverse _parse_wifi_line (nonblank_lines (strip is_space s))
  = traverse _parse_wifi_line (nonblank_lines s).
Proof.
  unfold strip, rstrip, lstrip.
  transitivity (traverse _parse_wifi_line (nonblank_lines (dropwhile is_space s))).
  - rewrite <- (rev_involutive (dropwhile is_space s)) at 2.
    induction (rev (dropwhile is_space s)) as [|c l IH]; [reflexivity|].
    simpl. destruct (is_space c) eqn:E; [|reflexivity].
    rewrite IH. symmetry. now apply records_trail_space.
  - induction s as [|c s IH]; [reflexivity|].
    simpl. destruct (is_space c) eqn:E; [|reflexivity].
    rewrite IH. symmetry. now apply records_lead_space.
Qed.

(** The records of a text are those of its lines that are not blank, in
    order, or the first exception among them. *)
Lemma parse_content_traverse content :
  _parse_wifi_content content
  = traverse _parse_wifi_line (nonblank_lines content).
Proof.
  unfold _parse_wifi_content. rewrite parse_lines_traverse.
  fold (nonblank_lines (strip is_space content)). rewrite records_strip.
  now destruct (traverse _ _).
Qed.

(** ** JSON text is ASCII, and encodes *)

Lemma py_byte s : Forall (fun c => c < 256) (py s).
Proof.
  unfold py. induction (list_ascii_of_string s) as [|a l IH]; simpl;
    constructor; [apply N_ascii_bounded|exact IH].
Qed.

Lemma hex_digit_ascii n : n < 16 -> hex_digit n < 128.
Proof. unfold hex_digit. intros H. destruct (N.ltb_spec n 10); lia. Qed.

Lemma u_escape_ascii n : Forall (fun c => c < 128) (u_escape n).
Proof.
  unfold u_escape.
  repeat constructor; try lia; apply hex_digit_ascii, N.mod_lt; lia.
Qed.

Lemma escape_char_ascii c : Forall (fun c => c < 128) (escape_char c).
Proof.
  unfold escape_char.
  repeat (match goal with
          | |- context [if ?b then _ else _] => destruct b eqn:?
          end; [repeat constructor; lia|]);
    try (apply Forall_app; split); try apply u_escape_ascii.
  match goal with
  | |- context [if ?b then _ else _] => destruct b eqn:E
  end.
  - apply andb_true_iff in E as [_ E]. apply N.leb_le in E.
    repeat constructor. lia.
  - destruct (c <? 65536); [apply u_escape_ascii|].
    apply Forall_app; split; apply u_escape_ascii.
Qed.

Lemma dumps_str_ascii s : Forall (fun c => c < 128) (dumps_str s).
Proof.
  unfold dumps_str. apply Forall_app. split; [repeat constructor; reflexivity|].
  apply Forall_app. split; [|repeat constructor; reflexivity].
  induction s as [|c s IH]; simpl; [constructor|].
  apply Forall_app. split; [apply escape_char_ascii|exact IH].
Qed.

Lemma Forall_byte_of_ascii s :
  Forall (fun c => c < 128) s -> Forall (fun c => c < 256) s.
Proof. apply Forall_impl. intros c H. lia. Qed.

Lemma join_forall (P : char -> Prop) sep parts :
  Forall P sep -> Forall (Forall P) parts -> Forall P (join sep parts).
Proof.
  intros Hsep. induction 1 as [|p rest Hp Hrest IH]; simpl; [constructor|].
  destruct rest as [|p' rest]; [exact Hp|].
  apply Forall_app. split; [exact Hp|].
  apply Forall_app. split; [exact Hsep|exact IH].
Qed.

Lemma newline_indent_byte n level :
  Forall (fun c => c < 256) (newline_indent n level).
Proof.
  unfold newline_indent. constructor; [reflexivity|].
  induction (n * level)%nat; simpl; constructor; [reflexivity|assumption].
Qed.

Lemma container_byte indent level open_ close items :
  Forall (fun c => c < 256) open_ -> Forall (fun c => c < 256) close ->
  Forall (Forall (fun c => c < 256)) items ->
  Forall (fun c => c < 256) (container indent level open_ close items).
Proof.
  intros Ho Hc Hi. unfold container.
  destruct items as [|i items]; [now apply Forall_app|].
  destruct indent as [n|];
    repeat (apply Forall_app; split);
    auto using newline_indent_byte, py_byte.
  - apply join_forall; [|exact Hi].
    apply Forall_app. split; [apply py_byte|apply newline_indent_byte].
  - apply join_forall; [apply py_byte|exact Hi].
Qed.

Lemma dumps_dict_byte float_repr indent level d :
  Forall (fun c => c < 256) (dumps_dict float_repr indent level d).
Proof.
  unfold dumps_dict. apply container_byte; try apply py_byte.
  apply Forall_map, Forall_forall. intros [k v] _. unfold dumps_item.
  cbn [fst snd]. apply Forall_app. split; [apply Forall_byte_of_ascii, dumps_str_ascii|].
  apply Forall_app. split; [apply py_byte|].
  destruct v; simpl;
    [apply Forall_byte_of_ascii, dumps_str_ascii|apply py_byte|apply py_byte].
Qed.

Lemma json_dumps_byte float_repr obj indent :
  Forall (fun c => c < 256) (json_dumps float_repr obj indent).
Proof.
  destruct obj as [items|d]; simpl; [|apply dumps_dict_byte].
  apply container_byte; try apply py_byte.
  apply Forall_map, Forall_forall. intros d _. apply dumps_dict_byte.
Qed.

Lemma encode_from_ascii s : forall text position,
  Forall (fun c => c < 128) s -> encode_from text position s = Ok s.
Proof.
  induction s as [|c s IH]; intros text position H; cbn [encode_from];
    [reflexivity|].
  inversion H as [|? ? Hc Hs]; subst. unfold utf8_char.
  destruct (N.ltb_spec c 128); [|lia].
  now rewrite (IH _ _ Hs).
Qed.

Lemma encode_from_byte s : forall text position,
  Forall (fun c => c < 256) s -> exists b, encode_from text position s = Ok b.
Proof.
  induction s as [|c s IH]; intros text position H; cbn [encode_from]; [eauto|].
  inversion H as [|? ? Hc Hs]; subst.
  destruct (IH text (S position) Hs) as (b & ->). unfold utf8_char.
  destruct (N.ltb_spec c 128); [cbn [bind]; eauto|].
  destruct (N.ltb_spec c 2048); [cbn [bind]; eauto|lia].
Qed.

Lemma error_json float_repr message :
  json_dumps float_repr (JObject [(py "error", VStr message)]) None
  = error_body message.
Proof.
  unfold error_body. cbn -[py dumps_str dumps_item].
  unfold dumps_item. cbn [fst snd dumps_value]. now rewrite <- !app_assoc.
Qed.

Lemma error_body_ascii message : Forall (fun c => c < 128) (error_body message).
Proof.
  unfold error_body.
  apply Forall_app. split; [vm_compute; repeat constructor|].
  apply Forall_app. split; [apply dumps_str_ascii|].
  apply Forall_app. split; [vm_compute; repeat constructor|].
  apply Forall_app. split; [apply dumps_str_ascii|].
  vm_compute; repeat constructor.
Qed.

(** ** The three responses *)

Lemma serve_404_run trace : _serve_404 trace = (Ok tt, trace ++ response_404).
Proof.
  unfold _serve_404, and_then, emit, response_404.
  now rewrite <- !app_assoc.
Qed.

Lemma serve_error_run float_repr message trace :
  _serve_error float_repr message trace
  = (Ok tt, trace ++ response_500 (error_body message)).
Proof.
  unfold _serve_error, and_then, emit, lift, response_500, json_content_type.
  cbv zeta. rewrite error_json.
  unfold encode. rewrite (encode_from_ascii _ _ _ (error_body_ascii message)).
  now rewrite <- !app_assoc.
Qed.

Lemma fetch_and_parse_run urlopen trace :
  _fetch_and_parse_wifi_data urlopen trace
  = (content <- urlopen url ;; _parse_wifi_content content, trace).
Proof.
  unfold _fetch_and_parse_wifi_data, and_then, lift.
  now destruct (urlopen url).
Qed.

Lemma serve_wifi_data_ok float_repr exception_str urlopen records trace :
  (content <- urlopen url ;; _parse_wifi_content content) = Ok records ->
  exists body,
    encode (json_dumps float_repr (JArray records) (Some 2%nat)) = Ok body
    /\ _serve_wifi_data float_repr exception_str urlopen trace
       = (Ok tt, trace ++ response_200 body).
Proof.
  intros H.
  destruct (encode_from_byte _ (json_dumps float_repr (JArray records) (Some 2%nat))
              O (json_dumps_byte float_repr (JArray records) (Some 2%nat)))
    as (body & E).
  exists body. split; [exact E|].
  unfold _serve_wifi_data, try_except, and_then at 1.
  rewrite fetch_and_parse_run, H.
  unfold and_then, emit, lift, response_200, json_content_type.
  unfold encode. rewrite E. now rewrite <- !app_assoc.
Qed.

Lemma serve_wifi_data_raise float_repr exception_str urlopen e trace :
  (content <- urlopen url ;; _parse_wifi_content content) = Raise e ->
  _serve_wifi_data float_repr exception_str urlopen trace
  = (Ok tt, trace ++ response_500
                       (error_body (py "Error procesando datos: " ++ exception_str e))).
Proof.
  intros H. unfold _serve_wifi_data, try_except, and_then at 1.
  rewrite fetch_and_parse_run, H. apply serve_error_run.
Qed.

Lemma str_eqb_eq a b : str_eqb a b = true <-> a = b.
Proof.
  revert b. induction a as [|x a IH]; intros [|y b]; simpl;
    try (split; [discriminate|congruence]); [tauto|].
  rewrite andb_true_iff, N.eqb_eq, IH. split; [intros [-> ->]|intros [= -> ->]]; auto.
Qed.

(** ** The record of a line *)

Lemma float_field_value fields i v :
  float_field fields i = Ok v -> exists f, v = VFloat f.
Proof.
  rewrite float_field_spec. unfold float_of.
  destruct (nth_error fields i) as [[|c t]|]; try (intros [= <-]; eauto).
  destruct (py_float (c :: t)); [intros [= <-]; eauto|discriminate].
Qed.

Lemma int_field_value fields i v :
  int_field fields i = Ok v -> exists n, v = VInt n.
Proof.
  rewrite int_field_spec. unfold int_of.
  destruct (nth_error fields i) as [[|c t]|]; try (intros [= <-]; eauto).
  destruct (py_int (c :: t)); [intros [= <-]; eauto|discriminate].
Qed.

Lemma text_field_quote_free line i default :
  ~ In dquote default ->
  quote_free_value (text_field (cleaned_fields line) i default).
Proof.
  intros Hd. unfold text_field.
  destruct (Nat.ltb_spec i (length (cleaned_fields line))); simpl; [|exact Hd].
  apply (cleaned_fields_quote_free line). now apply nth_In.
Qed.

(** The two floats of a line, read as decimals: 2437 and -67.5. *)
Lemma float_fields_example :
  float_field [py "aa:bb"; py "ts"; py "2437"; py "100"; py "0x0"; py "-67.5"] 2
  = Ok (VFloat (Decimal false 2437 0))
  /\ float_field [py "aa:bb"; py "ts"; py "2437"; py "100"; py "0x0"; py "-67.5"] 5
     = Ok (VFloat (Decimal true 675 (-1))).
Proof. split; vm_compute; reflexivity. Qed.

(** C1 fails as stated: on a line whose third field is no number the
    function raises and returns no record. *)
Lemma parse_line_may_raise :
  _parse_wifi_line (py "a,b,x") = Raise (ValueError_float (py "x"))
  /\ ~ (exists record, _parse_wifi_line (py "a,b,x") = Ok record).
Proof.
  assert (E : _parse_wifi_line (py "a,b,x") = Raise (ValueError_float (py "x")))
    by (vm_compute; reflexivity).
  split; [exact E|]. intros (record & H). rewrite E in H. discriminate.
Qed.

(** C1, amended: for every input line, [_parse_wifi_line] either raises the
    ValueError of a numeric conversion that fails on a non-empty token at
    position 2, 3, 5 or 8, or returns a record with exactly the 15 named
    attributes, in order, in which every position absent from the cleaned
    token sequence holds its stated default. *)
Theorem parse_line_record line :
  match _parse_wifi_line line with
  | Ok record =>
      map fst record = attribute_names
      /\ forall i key default,
           nth_error defaults i = Some (key, default) ->
           (length (cleaned_fields line) <= i)%nat ->
           nth_error record i = Some (key, default)
  | Raise e =>
      exists i key conv token,
        In (i, key, conv) numeric_positions
        /\ nth_error (cleaned_fields line) i = Some token /\ token <> []
        /\ conv token = Raise e
  end.
Proof.
  destruct (_parse_wifi_line line) as [record|e] eqn:E;
    [|now apply parse_line_raise].
  apply parse_line_ok in E
    as (freq & beacon & signal & channel & Hf & Hb & Hs & Hc & ->).
  split; [reflexivity|].
  intros i key default Hd Hlen.
  do 15 (destruct i as [|i];
         [ injection Hd as <- <-; cbn [nth_error]; do 2 f_equal;
           first [ now apply text_field_absent
                 | rewrite float_field_absent in * by lia; congruence
                 | rewrite int_field_absent in * by lia; congruence ]
         | ]).
  destruct i; discriminate.
Qed.

(** C2: the line with only two fields gives the record with those two and
    the thirteen defaults. *)
Theorem parse_two_fields :
  _parse_wifi_line (py "aa:bb:cc:dd:ee:ff,123456")
  = Ok [ (py "bss", VStr (py "aa:bb:cc:dd:ee:ff"));
         (py "tsf", VStr (py "123456"));
         (py "freq", VFloat float_zero);
         (py "beacon", VInt 0);
         (py "capa", VStr (py "0x0"));
         (py "signal", VFloat float_zero);
         (py "ssid", VStr (py ""));
         (py "ht_capa", VStr (py "0x0"));
         (py "primary_channel", VInt 0);
         (py "vht_capa", VStr (py "0x0"));
         (py "he_capa", VStr (py "0x0"));
         (py "he_phy_capa", VStr (py ""));
         (py "encryption", VStr (py ""));
         (py "cipher", VStr (py ""));
         (py "suite", VStr (py "")) ].
Proof. vm_compute. reflexivity. Qed.

(** C3: a double-quoted span is one token, commas included, wherever it
    opens after double quotes that pair up; on the line of the quoted network
    name the ssid is the name without its quotes, comma kept, and the primary
    channel is the integer 6. *)
Theorem quoted_span_one_token :
  (forall before inner rest,
     Nat.even (quote_count before) = true -> forallb unquote inner = true ->
     re_findall (before ++ quoted inner ++ rest)
     = re_findall before ++ quoted inner :: re_findall rest)
  /\ re_findall home_network_line
     = [ py "aa:bb"; py "ts"; py "2412"; py "100"; py "0x0"; py "-50";
         quoted (py "My, Home Network"); py "0x0"; py "6" ]
  /\ exists record,
       _parse_wifi_line home_network_line = Ok record
       /\ lookup (py "ssid") record = Some (VStr (py "My, Home Network"))
       /\ lookup (py "primary_channel") record = Some (VInt 6%Z).
Proof.
  split; [|split].
  - intros before inner rest He H.
    rewrite re_findall_app; [|exact He|reflexivity].
    f_equal. unfold quoted. simpl app.
    rewrite <- app_assoc. simpl app. now apply re_findall_quoted.
  - vm_compute. reflexivity.
  - eexists. split; [vm_compute; reflexivity|].
    split; vm_compute; reflexivity.
Qed.

(** ** The records of a text *)

(** C4 fails as stated: a text with two lines that are not blank, the second
    with a frequency that is no number, gives no record at all. *)
Lemma parse_content_may_raise :
  length (nonblank_lines bad_frequency_text) = 2%nat
  /\ _parse_wifi_content bad_frequency_text = Raise (ValueError_float (py "x"))
  /\ ~ (exists records, _parse_wifi_content bad_frequency_text = Ok records).
Proof.
  assert (E : _parse_wifi_content bad_frequency_text
              = Raise (ValueError_float (py "x"))) by (vm_compute; reflexivity).
  split; [vm_compute; reflexivity|]. split; [exact E|].
  intros (records & H). rewrite E in H. discriminate.
Qed.

(** C4, amended: for every input text, [_parse_wifi_content] either raises
    the ValueError of a line that is not blank, and returns no record, or
    returns exactly one record per line that is not blank, each the record of
    its line, in the order of those lines; the length of the result is then
    the number of lines that are not blank. *)
Theorem parse_content_records content :
  match _parse_wifi_content content with
  | Ok records =>
      Forall2 (fun line record => _parse_wifi_line line = Ok record)
              (nonblank_lines content) records
      /\ length records = length (nonblank_lines content)
  | Raise e =>
      exists line, In line (nonblank_lines content) /\ _parse_wifi_line line = Raise e
  end.
Proof.
  rewrite parse_content_traverse.
  destruct (traverse _parse_wifi_line (nonblank_lines content)) as [records|e] eqn:E.
  - apply traverse_ok in E. split; [exact E|].
    symmetry. eapply Forall2_length, E.
  - now apply traverse_raise.
Qed.

(** ** Empty fields *)

(** C5 fails as stated: the empty quoted span is kept as an empty field, and
    the field after it stays at its position. *)
Lemma empty_quoted_field_kept :
  cleaned_fields empty_quoted_line = [py "a"; []; py "2412"]
  /\ exists record,
       _parse_wifi_line empty_quoted_line = Ok record
       /\ lookup (py "tsf") record = Some (VStr [])
       /\ lookup (py "freq") record = Some (VFloat (Decimal false 2412 0)).
Proof.
  split; [vm_compute; reflexivity|].
  eexists. split; [vm_compute; reflexivity|].
  split; vm_compute; reflexivity.
Qed.

(** C5, amended: the cleaning step drops a token exactly when it is blank
    as scanned, before its quotes are removed, which only an unquoted token can
    be, and an unquoted token that is kept is not empty once cleaned; every
    quoted token is kept, so a quoted span that is empty or blank between its
    quotes occupies its position as the empty string and the fields after
    it do not shift. *)
Theorem blank_tokens_dropped line :
  cleaned_fields line
  = map clean (filter (fun token => negb (blank token)) (re_findall line))
  /\ (forall token, In token (re_findall line) ->
        (blank token = true -> forallb plain token = true)
        /\ (forallb plain token = true -> blank token = false -> clean token <> []))
  /\ (forall a inner b,
        line = a ++ quoted inner ++ b ->
        Nat.even (quote_count a) = true -> forallb unquote inner = true ->
        cleaned_fields line
        = cleaned_fields a ++ strip is_space inner :: cleaned_fields b).
Proof.
  split; [apply cleaned_fields_tokens|]. split.
  - intros token Ht. apply token_shape in Ht as [[_ Hp]|(inner & Hu & ->)].
    + split; [auto|]. intros _ Hb. rewrite (clean_plain _ Hp).
      unfold blank in Hb. now destruct (strip is_space token).
    + rewrite quoted_not_blank. split; [discriminate|].
      simpl. discriminate.
  - intros a inner b -> He Hu.
    rewrite cleaned_fields_app; [|exact He|reflexivity].
    f_equal. unfold quoted. simpl app. rewrite <- app_assoc. simpl app.
    unfold cleaned_fields. rewrite (re_findall_quoted _ _ Hu).
    cbn [filter].
    pose proof (quoted_not_blank inner) as Q. unfold blank in Q.
    apply negb_false_iff in Q. rewrite Q. cbn [map].
    now rewrite (clean_quoted _ Hu).
Qed.

(** ** Numeric positions *)

Lemma record_lookup (v0 v1 v2 v3 v4 v5 v6 v7 v8 v9 v10 v11 v12 v13 v14 : value) :
  let record :=
    [ (py "bss", v0); (py "tsf", v1); (py "freq", v2); (py "beacon", v3);
      (py "capa", v4); (py "signal", v5); (py "ssid", v6); (py "ht_capa", v7);
      (py "primary_channel", v8); (py "vht_capa", v9); (py "he_capa", v10);
      (py "he_phy_capa", v11); (py "encryption", v12); (py "cipher", v13);
      (py "suite", v14) ] in
  lookup (py "freq") record = Some v2
  /\ lookup (py "beacon") record = Some v3
  /\ lookup (py "signal") record = Some v5
  /\ lookup (py "primary_channel") record = Some v8.
Proof. repeat split; vm_compute; reflexivity. Qed.

(** The value a record holds at a numeric position. *)
Lemma numeric_position_value line record i key conv :
  In (i, key, conv) numeric_positions ->
  _parse_wifi_line line = Ok record ->
  exists v,
    lookup key record = Some v
    /\ match nth_error (cleaned_fields line) i with
       | Some (c :: token) => conv (c :: token) = Ok v
       | _ => lookup key defaults = Some v
       end.
Proof.
  intros Hin H.
  apply parse_line_ok in H
    as (freq & beacon & signal & channel & Hf & Hb & Hs & Hc & ->).
  match goal with
  | |- context [lookup key ?r] =>
      match r with
      | [ (_, ?v0); (_, ?v1); (_, ?v2); (_, ?v3); (_, ?v4); (_, ?v5); (_, ?v6);
          (_, ?v7); (_, ?v8); (_, ?v9); (_, ?v10); (_, ?v11); (_, ?v12);
          (_, ?v13); (_, ?v14) ] =>
          destruct (record_lookup v0 v1 v2 v3 v4 v5 v6 v7 v8 v9 v10 v11 v12 v13 v14)
            as (L2 & L3 & L5 & L8)
      end
  end.
  rewrite float_field_spec in Hf, Hs. rewrite int_field_spec in Hb, Hc.
  simpl in Hin.
  destruct Hin as [[= <- <- <-]|[[= <- <- <-]|[[= <- <- <-]|[[= <- <- <-]|[]]]]].
  - exists freq. split; [exact L2|].
    destruct (nth_error (cleaned_fields line) 2) as [[|c t]|];
      try exact Hf; injection Hf as <-; reflexivity.
  - exists beacon. split; [exact L3|].
    destruct (nth_error (cleaned_fields line) 3) as [[|c t]|];
      try exact Hb; injection Hb as <-; reflexivity.
  - exists signal. split; [exact L5|].
    destruct (nth_error (cleaned_fields line) 5) as [[|c t]|];
      try exact Hs; injection Hs as <-; reflexivity.
  - exists channel. split; [exact L8|].
    destruct (nth_error (cleaned_fields line) 8) as [[|c t]|];
      try exact Hc; injection Hc as <-; reflexivity.
Qed.

(** A numeric position that does not raise: no token, an empty one, or one
    the conversion accepts. *)
Lemma numeric_field_ok (fields : list str) i (conv : str -> result value) :
  match nth_error fields i with
  | Some (c :: token) => exists v, conv (c :: token) = Ok v
  | _ => True
  end ->
  forall default : value,
  exists v,
    match nth_error fields i with
    | Some (c :: token) => conv (c :: token)
    | _ => Ok default
    end = Ok v.
Proof.
  intros H default.
  destruct (nth_error fields i) as [[|c token]|]; eauto.
Qed.

(** A line all of whose numeric positions are without a token, with an empty
    one or with one the conversion accepts gives a record. *)
Lemma parse_line_returns line :
  (forall i key conv, In (i, key, conv) numeric_positions ->
     match nth_error (cleaned_fields line) i with
     | Some (c :: token) => exists v, conv (c :: token) = Ok v
     | _ => True
     end) ->
  exists record, _parse_wifi_line line = Ok record.
Proof.
  intros H. unfold _parse_wifi_line. cbv zeta.
  rewrite !float_field_spec, !int_field_spec.
  destruct (numeric_field_ok _ _ _ (H 2%nat (py "freq") float_of (or_introl eq_refl))
              (VFloat float_zero)) as (v2 & ->).
  destruct (numeric_field_ok _ _ _
              (H 3%nat (py "beacon") int_of (or_intror (or_introl eq_refl)))
              (VInt 0)) as (v3 & ->).
  destruct (numeric_field_ok _ _ _
              (H 5%nat (py "signal") float_of
                 (or_intror (or_intror (or_introl eq_refl))))
              (VFloat float_zero)) as (v5 & ->).
  destruct (numeric_field_ok _ _ _
              (H 8%nat (py "primary_channel") int_of
                 (or_intror (or_intror (or_intror (or_introl eq_refl)))))
              (VInt 0)) as (v8 & ->).
  cbn [bind]. eauto.
Qed.

Lemma do_GET_air float_repr exception_str urlopen trace :
  do_GET float_repr exception_str urlopen (py "/air") trace
  = _serve_wifi_data float_repr exception_str urlopen trace.
Proof. reflexivity. Qed.

(** C6: a line gives a record whenever each of its numeric positions is
    without a token, has an empty one or has one its conversion accepts, and
    the record then holds the default where the token is absent or empty and
    the converted value where it is not, a float for freq and signal, an integer
    for beacon and primary_channel; a non-empty token that its conversion
    refuses makes the line raise; when a line that is not blank raises, the
    whole text gives an exception and no list of records, and the handler
    answers with the 500 response. *)
Theorem numeric_coercion float_repr exception_str urlopen :
  (forall line,
     (forall i key conv, In (i, key, conv) numeric_positions ->
        match nth_error (cleaned_fields line) i with
        | Some (c :: token) => exists v, conv (c :: token) = Ok v
        | _ => True
        end) ->
     exists record,
       _parse_wifi_line line = Ok record
       /\ forall i key conv, In (i, key, conv) numeric_positions ->
            exists v,
              lookup key record = Some v
              /\ match nth_error (cleaned_fields line) i with
                 | Some (c :: token) => conv (c :: token) = Ok v
                 | _ => lookup key defaults = Some v
                 end)
  /\ (forall line i key conv, In (i, key, conv) numeric_positions ->
     match nth_error (cleaned_fields line) i with
     | Some (c :: token) =>
         match conv (c :: token) with
         | Ok v => forall record, _parse_wifi_line line = Ok record ->
                                  lookup key record = Some v
         | Raise _ => exists e, _parse_wifi_line line = Raise e
         end
     | _ => forall record, _parse_wifi_line line = Ok record ->
                           lookup key record = lookup key defaults
     end)
  /\ (forall content line e,
        In line (nonblank_lines content) -> _parse_wifi_line line = Raise e ->
        exists e', _parse_wifi_content content = Raise e')
  /\ (forall content e trace,
        urlopen url = Ok content -> _parse_wifi_content content = Raise e ->
        do_GET float_repr exception_str urlopen (py "/air") trace
        = (Ok tt,
           trace ++ response_500
                      (error_body (py "Error procesando datos: " ++ exception_str e)))).
Proof.
  split; [|split; [|split]].
  - intros line H. destruct (parse_line_returns line H) as (record & E).
    exists record. split; [exact E|].
    intros i key conv Hin. now apply (numeric_position_value line).
  - intros line i key conv Hin.
    pose proof (numeric_position_value line) as V.
    destruct (nth_error (cleaned_fields line) i) as [[|c token]|] eqn:En.
    + intros record H. destruct (V record i key conv Hin H) as (v & L & D).
      rewrite En in D. congruence.
    + destruct (conv (c :: token)) as [v|e0] eqn:Ec.
      * intros record H. destruct (V record i key conv Hin H) as (v' & L & D).
        rewrite En in D. congruence.
      * destruct (_parse_wifi_line line) as [record|e] eqn:H; [|eauto].
        destruct (V record i key conv Hin eq_refl) as (v' & L & D).
        rewrite En in D. congruence.
    + intros record H. destruct (V record i key conv Hin H) as (v & L & D).
      rewrite En in D. congruence.
  - intros content line e Hin H. rewrite parse_content_traverse.
    eapply traverse_fails; eauto.
  - intros content e trace Hu Hp. rewrite do_GET_air.
    apply serve_wifi_data_raise. now rewrite Hu.
Qed.

Lemma numeric_coercion_witness :
  exists record,
    _parse_wifi_line (py "a,b," ++ quoted [] ++ py ",100") = Ok record
    /\ lookup (py "freq") record = Some (VFloat float_zero)
    /\ lookup (py "beacon") record = Some (VInt 100).
Proof.
  destruct (proj1 (numeric_coercion repr_zero describe upstream_down)
                  (py "a,b," ++ quoted [] ++ py ",100"))
    as (record & E & V).
  - intros i key conv [[= <- <- <-]|[[= <- <- <-]|[[= <- <- <-]|[[= <- <- <-]|[]]]]];
      vm_compute; eauto.
  - exists record. split; [exact E|]. split.
    + destruct (V 2%nat (py "freq") float_of (or_introl eq_refl)) as (v & L & D).
      vm_compute in D. injection D as <-. exact L.
    + destruct (V 3%nat (py "beacon") int_of (or_intror (or_introl eq_refl)))
        as (v & L & D).
      vm_compute in D. injection D as <-. exact L.
Defined.

(** ** Routing and responses *)

(** C7: on the path /air, when fetch and parse succeed, the handler sends
    the 200 response with the JSON content type, the header that allows every
    origin, and as body the UTF-8 bytes of the array of records written with an
    indentation of 2; on every other path it sends the 404 response with the
    plain-text content type and the fixed body. *)
Theorem do_GET_routes float_repr exception_str urlopen path trace :
  (path = py "/air" ->
   forall content records,
     urlopen url = Ok content -> _parse_wifi_content content = Ok records ->
     exists body,
       encode (json_dumps float_repr (JArray records) (Some 2%nat)) = Ok body
       /\ do_GET float_repr exception_str urlopen path trace
          = (Ok tt, trace ++ response_200 body))
  /\ (path <> py "/air" ->
      do_GET float_repr exception_str urlopen path trace
      = (Ok tt, trace ++ response_404)).
Proof.
  split.
  - intros -> content records Hu Hp. rewrite do_GET_air.
    apply serve_wifi_data_ok. now rewrite Hu.
  - intros Hpath. unfold do_GET.
    destruct (str_eqb path (py "/air")) eqn:E.
    + apply str_eqb_eq in E. contradiction.
    + apply serve_404_run.
Qed.

Lemma do_GET_routes_witness :
  (exists body,
     encode (json_dumps repr_zero
               (JArray [ [ (py "bss", VStr (py "aa:bb:cc:dd:ee:ff"));
                           (py "tsf", VStr (py "123456"));
                           (py "freq", VFloat float_zero);
                           (py "beacon", VInt 0);
                           (py "capa", VStr (py "0x0"));
                           (py "signal", VFloat float_zero);
                           (py "ssid", VStr (py ""));
                           (py "ht_capa", VStr (py "0x0"));
                           (py "primary_channel", VInt 0);
                           (py "vht_capa", VStr (py "0x0"));
                           (py "he_capa", VStr (py "0x0"));
                           (py "he_phy_capa", VStr (py ""));
                           (py "encryption", VStr (py ""));
                           (py "cipher", VStr (py ""));
                           (py "suite", VStr (py "")) ] ])
               (Some 2%nat)) = Ok body
     /\ do_GET repr_zero describe
               (upstream_serving (py "aa:bb:cc:dd:ee:ff,123456")) (py "/air") []
        = (Ok tt, [] ++ response_200 body))
  /\ do_GET repr_zero describe upstream_down (py "/foo") []
     = (Ok tt, [] ++ response_404).
Proof.
  split.
  - apply (proj1 (do_GET_routes repr_zero describe
                    (upstream_serving (py "aa:bb:cc:dd:ee:ff,123456"))
                    (py "/air") []) eq_refl (py "aa:bb:cc:dd:ee:ff,123456")).
    + reflexivity.
    + vm_compute. reflexivity.
  - apply (proj2 (do_GET_routes repr_zero describe upstream_down (py "/foo") [])).
    vm_compute. discriminate.
Defined.

(** C8: when fetch or parse fails on a GET of /air the handler itself
    returns normally and sends exactly one response: status 500, the JSON
    content type, and as body the compact JSON object whose one key, error,
    holds the fixed prefix followed by the text of the exception. *)
Theorem do_GET_failure float_repr exception_str urlopen e trace :
  urlopen url = Raise e
  \/ (exists content, urlopen url = Ok content /\ _parse_wifi_content content = Raise e) ->
  do_GET float_repr exception_str urlopen (py "/air") trace
  = (Ok tt,
     trace ++ [ send_response 500;
                send_header (py "Content-Type") (py "application/json; charset=utf-8");
                end_headers;
                write (py "{" ++ dumps_str (py "error") ++ py ": "
                       ++ dumps_str (py "Error procesando datos: " ++ exception_str e)
                       ++ py "}") ]).
Proof.
  intros H. rewrite do_GET_air.
  apply serve_wifi_data_raise.
  destruct H as [->|(content & -> & Hp)]; [reflexivity|exact Hp].
Qed.

Lemma do_GET_failure_witness :
  do_GET repr_zero describe upstream_down (py "/air") []
  = (Ok tt,
     [ send_response 500;
       send_header (py "Content-Type") (py "application/json; charset=utf-8");
       end_headers;
       write (py "{" ++ dumps_str (py "error") ++ py ": "
              ++ dumps_str (py "Error procesando datos: "
                            ++ describe (FetchError (py "timed out")))
              ++ py "}") ]).
Proof.
  apply (do_GET_failure repr_zero describe upstream_down
                        (FetchError (py "timed out")) []).
  left. reflexivity.
Defined.

(** ** Separators *)

Lemma cleaned_fields_comma rest :
  cleaned_fields (comma :: rest) = cleaned_fields rest.
Proof. unfold cleaned_fields. now rewrite re_findall_comma. Qed.

Lemma cleaned_fields_plain a :
  forallb plain a = true ->
  cleaned_fields a = if blank a then [] else [strip is_space a].
Proof.
  intros H. rewrite cleaned_fields_tokens, (re_findall_all_plain _ H).
  destruct a as [|c a]; [reflexivity|].
  cbn [filter]. destruct (blank (c :: a)); [reflexivity|].
  cbn [negb map]. now rewrite (clean_plain _ H).
Qed.

Lemma plain_even a : forallb plain a = true -> Nat.even (quote_count a) = true.
Proof.
  intros H. now rewrite (quote_count_unquote _ (forallb_plain_unquote _ H)).
Qed.

(** C9: two commas in a row separate like one. For [a] and [b] without
    comma or double quote, the line with two commas between them gives the
    record of the line with one; and when neither is blank its fields are the
    two, with no empty field between them. *)
Theorem consecutive_commas a b :
  forallb plain a = true -> forallb plain b = true ->
  _parse_wifi_line (a ++ py ",," ++ b) = _parse_wifi_line (a ++ py "," ++ b)
  /\ (blank a = false -> blank b = false ->
      cleaned_fields (a ++ py ",," ++ b) = [strip is_space a; strip is_space b]).
Proof.
  intros Ha Hb.
  change (py ",,") with [comma; comma]. change (py ",") with [comma].
  assert (E2 : cleaned_fields (a ++ [comma; comma] ++ b)
               = cleaned_fields a ++ cleaned_fields b).
  { simpl app. rewrite cleaned_fields_app; [|now apply plain_even|reflexivity].
    now rewrite !cleaned_fields_comma. }
  assert (E1 : cleaned_fields (a ++ [comma] ++ b)
               = cleaned_fields a ++ cleaned_fields b).
  { simpl app. rewrite cleaned_fields_app; [|now apply plain_even|reflexivity].
    now rewrite cleaned_fields_comma. }
  split.
  - apply parse_line_fields. now rewrite E1, E2.
  - intros Na Nb.
    rewrite E2, (cleaned_fields_plain _ Ha), (cleaned_fields_plain _ Hb).
    now rewrite Na, Nb.
Qed.

Lemma consecutive_commas_witness :
  _parse_wifi_line (py "aa:bb" ++ py ",," ++ py "ts")
  = _parse_wifi_line (py "aa:bb" ++ py "," ++ py "ts")
  /\ cleaned_fields (py "aa:bb" ++ py ",," ++ py "ts")
     = [strip is_space (py "aa:bb"); strip is_space (py "ts")].
Proof.
  destruct (consecutive_commas (py "aa:bb") (py "ts")) as [E F];
    [vm_compute; reflexivity|vm_compute; reflexivity|].
  split; [exact E|]. apply F; vm_compute; reflexivity.
Defined.

(** C10: no cleaned field and no string of a record holds a double quote;
    a quoted span has lost its quotes by then, and a double quote
    that nothing closes is skipped, the text after it being scanned as after a
    comma, so that it ends the field before it and is in no field. *)
Theorem fields_hold_no_quote line :
  (forall field, In field (cleaned_fields line) -> ~ In dquote field)
  /\ (forall record key v,
        _parse_wifi_line line = Ok record -> In (key, v) record -> quote_free_value v)
  /\ (forall a b,
        line = a ++ dquote :: b ->
        Nat.even (quote_count a) = true -> forallb unquote b = true ->
        re_findall line = re_findall a ++ re_findall b
        /\ re_findall line = re_findall (a ++ comma :: b)
        /\ _parse_wifi_line line = _parse_wifi_line (a ++ comma :: b)).
Proof.
  split; [apply cleaned_fields_quote_free|]. split.
  - intros record key v H Hin.
    apply parse_line_ok in H
      as (freq & beacon & signal & channel & Hf & Hb & Hs & Hc & ->).
    apply float_field_value in Hf as (? & ->), Hs as (? & ->).
    apply int_field_value in Hb as (? & ->), Hc as (? & ->).
    simpl in Hin.
    repeat (destruct Hin as [[= <- <-]|Hin];
            [first [ exact I
                   | apply text_field_quote_free; vm_compute;
                     intuition discriminate ]|]).
    destruct Hin.
  - intros a b -> He Hb.
    assert (Eq : re_findall (a ++ dquote :: b) = re_findall a ++ re_findall b).
    { rewrite re_findall_app; [|exact He|reflexivity].
      now rewrite (re_findall_open_quote _ Hb). }
    assert (Ec : re_findall (a ++ comma :: b) = re_findall a ++ re_findall b).
    { rewrite re_findall_app; [|exact He|reflexivity].
      now rewrite re_findall_comma. }
    split; [exact Eq|]. split; [congruence|].
    apply parse_line_fields. unfold cleaned_fields. congruence.
Qed.

(** * Further properties of the handler and of the parser *)

(** ** Every request is answered *)

Lemma response_200_shape body :
  response_200 body
  = response 200 [ (py "Content-Type", py "application/json; charset=utf-8");
                   (py "Access-Control-Allow-Origin", py "*") ] body.
Proof. reflexivity. Qed.

Lemma response_404_shape :
  response_404
  = response 404 [ (py "Content-Type", py "text/plain; charset=utf-8") ]
             (py "Ruta no encontrada. Use /air para obtener datos Wi-Fi.").
Proof. reflexivity. Qed.

Lemma response_500_shape body :
  response_500 body
  = response 500 [ (py "Content-Type", py "application/json; charset=utf-8") ] body.
Proof. reflexivity. Qed.

(** With a connection that works, one response. *)
Lemma do_GET_one_response float_repr exception_str urlopen path trace :
  exists code headers body,
    In code [200; 404; 500]
    /\ do_GET float_repr exception_str urlopen path trace
       = (Ok tt, trace ++ response code headers body).
Proof.
  unfold do_GET. destruct (str_eqb path (py "/air")).
  - destruct (content <- urlopen url ;; _parse_wifi_content content)
      as [records|e] eqn:E.
    + destruct (serve_wifi_data_ok float_repr exception_str urlopen records trace E)
        as (body & _ & ->).
      rewrite response_200_shape. do 3 eexists. split; [|reflexivity].
      simpl. auto.
    + rewrite (serve_wifi_data_raise float_repr exception_str urlopen e trace E).
      rewrite response_500_shape. do 3 eexists. split; [|reflexivity].
      simpl. auto.
  - rewrite serve_404_run, response_404_shape. do 3 eexists.
    split; [|reflexivity]. simpl. auto.
Qed.

Section Connection.

Variable transport : list call -> call -> option exception.

Lemma emit_raises_only c : raises_only_from transport (OverTransport.emit transport c).
Proof.
  intros trace e trace'. unfold OverTransport.emit.
  destruct (transport trace c) as [e0|] eqn:E; [|discriminate].
  intros [= <- _]. eauto.
Qed.

Lemma lift_ok_raises_only {A : Type} (a : A) :
  raises_only_from transport (lift (Ok a)).
Proof. intros trace e trace'. unfold lift. discriminate. Qed.

Lemma and_then_raises_only {A B : Type} (m : handler A) (k : A -> handler B) :
  raises_only_from transport m ->
  (forall a, raises_only_from transport (k a)) ->
  raises_only_from transport (and_then m k).
Proof.
  intros Hm Hk trace e trace'. unfold and_then.
  destruct (m trace) as [[a|e0] t1] eqn:E.
  - apply Hk.
  - intros [= <- <-]. eapply Hm, E.
Qed.

Lemma try_except_raises_only {A : Type} (body : handler A) on_error :
  (forall e, raises_only_from transport (on_error e)) ->
  raises_only_from transport (try_except body on_error).
Proof.
  intros Hh trace e trace'. unfold try_except.
  destruct (body trace) as [[a|e0] t1]; [discriminate|apply Hh].
Qed.

Lemma over_serve_error_raises_only float_repr message :
  raises_only_from transport (OverTransport._serve_error transport float_repr message).
Proof.
  unfold OverTransport._serve_error. cbv zeta.
  repeat (apply and_then_raises_only; [apply emit_raises_only|intros _]).
  rewrite error_json. unfold encode.
  rewrite (encode_from_ascii _ _ _ (error_body_ascii message)).
  apply and_then_raises_only; [apply lift_ok_raises_only|].
  intros body. apply emit_raises_only.
Qed.

Lemma over_serve_404_raises_only :
  raises_only_from transport (OverTransport._serve_404 transport).
Proof.
  unfold OverTransport._serve_404.
  repeat (apply and_then_raises_only; [apply emit_raises_only|intros _]).
  apply emit_raises_only.
Qed.

Hypothesis reliable : forall t c, transport t c = None.

Lemma and_then_emit_reliable {B : Type} c (k : unit -> handler B) trace :
  and_then (OverTransport.emit transport c) k trace = k tt (trace ++ [c]).
Proof. unfold and_then, OverTransport.emit. now rewrite reliable. Qed.

Lemma emit_reliable c trace :
  OverTransport.emit transport c trace = emit c trace.
Proof. unfold OverTransport.emit, emit. now rewrite reliable. Qed.

Lemma over_serve_404_reliable trace :
  OverTransport._serve_404 transport trace = _serve_404 trace.
Proof.
  unfold OverTransport._serve_404.
  repeat (rewrite and_then_emit_reliable; cbv beta).
  now rewrite emit_reliable.
Qed.

Lemma over_serve_error_reliable float_repr message trace :
  OverTransport._serve_error transport float_repr message trace
  = _serve_error float_repr message trace.
Proof.
  unfold OverTransport._serve_error, _serve_error. cbv zeta.
  repeat (rewrite and_then_emit_reliable; cbv beta).
  unfold and_then, emit, lift.
  destruct (encode _); [apply emit_reliable|reflexivity].
Qed.

Lemma over_serve_wifi_data_reliable float_repr exception_str urlopen trace :
  OverTransport._serve_wifi_data transport float_repr exception_str urlopen trace
  = _serve_wifi_data float_repr exception_str urlopen trace.
Proof.
  unfold OverTransport._serve_wifi_data, try_except. unfold and_then at 1.
  rewrite fetch_and_parse_run.
  destruct (content <- urlopen url ;; _parse_wifi_content content)
    as [records|e] eqn:E.
  - destruct (serve_wifi_data_ok float_repr exception_str urlopen records trace E)
      as (body & Hb & ->).
    repeat (rewrite and_then_emit_reliable; cbv beta).
    unfold and_then, lift. rewrite Hb, emit_reliable.
    unfold emit, response_200, json_content_type. now rewrite <- !app_assoc.
  - rewrite (serve_wifi_data_raise float_repr exception_str urlopen e trace E).
    rewrite over_serve_error_reliable. apply serve_error_run.
Qed.

End Connection.

(** X1: over a connection whose calls may raise, [do_GET] sends exactly
    one response and returns when none of them raises: status 200, 404 or 500,
    headers, end of headers and one write, after what was sent before. And the
    only exceptions it lets through are those raised by a call on the
    connection: what fetching, parsing, writing JSON or encoding raises never
    leaves it. *)
Theorem do_GET_over_transport transport float_repr exception_str urlopen path trace :
  ((forall t c, transport t c = None) ->
   exists code headers body,
     In code [200; 404; 500]
     /\ OverTransport.do_GET transport float_repr exception_str urlopen path trace
        = (Ok tt, trace ++ response code headers body))
  /\ (forall e trace',
        OverTransport.do_GET transport float_repr exception_str urlopen path trace
        = (Raise e, trace') ->
        exists t c, transport t c = Some e).
Proof.
  split.
  - intros H.
    destruct (do_GET_one_response float_repr exception_str urlopen path trace)
      as (code & headers & body & Hc & E).
    exists code, headers, body. split; [exact Hc|]. rewrite <- E.
    unfold OverTransport.do_GET, do_GET.
    destruct (str_eqb path (py "/air"));
      [now apply over_serve_wifi_data_reliable|now apply over_serve_404_reliable].
  - intros e trace'. unfold OverTransport.do_GET.
    destruct (str_eqb path (py "/air")).
    + apply try_except_raises_only. intros e0.
      apply over_serve_error_raises_only.
    + apply over_serve_404_raises_only.
Qed.

(** When the write of the body fails after the 200 headers, the 500 status
    and headers follow them, the write of the error fails too, and the
    exception of the connection leaves [do_GET]. *)
Lemma do_GET_over_transport_witness :
  OverTransport.do_GET (writes_fail (ConnectionError (py "Broken pipe")))
                       repr_zero describe
                       (upstream_serving (py "aa:bb:cc:dd:ee:ff,123456"))
                       (py "/air") []
  = (Raise (ConnectionError (py "Broken pipe")),
     [ send_response 200; json_content_type;
       send_header (py "Access-Control-Allow-Origin") (py "*"); end_headers;
       send_response 500; json_content_type; end_headers ])
  /\ exists t c,
       writes_fail (ConnectionError (py "Broken pipe")) t c
       = Some (ConnectionError (py "Broken pipe")).
Proof.
  assert (E : OverTransport.do_GET (writes_fail (ConnectionError (py "Broken pipe")))
                repr_zero describe
                (upstream_serving (py "aa:bb:cc:dd:ee:ff,123456")) (py "/air") []
              = (Raise (ConnectionError (py "Broken pipe")),
                 [ send_response 200; json_content_type;
                   send_header (py "Access-Control-Allow-Origin") (py "*");
                   end_headers;
                   send_response 500; json_content_type; end_headers ]))
    by (vm_compute; reflexivity).
  split; [exact E|].
  exact (proj2 (do_GET_over_transport _ _ _ _ _ _) _ _ E).
Defined.

(** ** An empty upstream text *)

Lemma parse_content_blank content :
  forallb is_space content = true -> _parse_wifi_content content = Ok [].
Proof.
  intros H. unfold _parse_wifi_content. now rewrite (strip_all _ _ H).
Qed.

(** X2: a text that is empty or all spaces gives the empty list of records
    and no exception, and the handler then answers 200 with the two bytes of
    the empty JSON array. *)
Theorem blank_text_empty_array float_repr exception_str urlopen content trace :
  forallb is_space content = true ->
  _parse_wifi_content content = Ok []
  /\ (urlopen url = Ok content ->
      do_GET float_repr exception_str urlopen (py "/air") trace
      = (Ok tt, trace ++ response_200 (py "[]"))).
Proof.
  intros H. pose proof (parse_content_blank content H) as E.
  split; [exact E|]. intros Hu. rewrite do_GET_air.
  destruct (serve_wifi_data_ok float_repr exception_str urlopen [] trace)
    as (body & Hb & ->); [now rewrite Hu|].
  vm_compute in Hb. now injection Hb as <-.
Qed.

Lemma blank_text_empty_array_witness :
  _parse_wifi_content [32; 10; 13; 10; 9] = Ok []
  /\ do_GET repr_zero describe (upstream_serving [32; 10; 13; 10; 9]) (py "/air") []
     = (Ok tt, [] ++ response_200 (py "[]")).
Proof.
  destruct (blank_text_empty_array repr_zero describe
              (upstream_serving [32; 10; 13; 10; 9]) [32; 10; 13; 10; 9] [])
    as [E F]; [vm_compute; reflexivity|].
  split; [exact E|]. apply F. reflexivity.
Defined.

(** ** The bytes of the bodies *)

Lemma hex_digit_printable n : n < 16 -> printable (hex_digit n).
Proof.
  unfold hex_digit, printable. intros H. destruct (N.ltb_spec n 10); lia.
Qed.

Lemma u_escape_printable n : Forall printable (u_escape n).
Proof.
  unfold u_escape.
  repeat (constructor; [first [ apply hex_digit_printable, N.mod_lt; lia
                              | unfold printable; lia ]|]).
  constructor.
Qed.

Lemma escape_char_printable c : Forall printable (escape_char c).
Proof.
  unfold escape_char.
  repeat (match goal with
          | |- context [if ?b =? ?k then _ else _] => destruct (b =? k)
          end; [repeat constructor; unfold printable; lia|]).
  destruct ((32 <=? c) && (c <=? 126)) eqn:E.
  - apply andb_true_iff in E as [E1 E2]. apply N.leb_le in E1, E2.
    repeat constructor; lia.
  - destruct (c <? 65536); [apply u_escape_printable|].
    apply Forall_app; split; apply u_escape_printable.
Qed.

Lemma dumps_str_printable s : Forall printable (dumps_str s).
Proof.
  unfold dumps_str.
  apply Forall_app. split; [repeat constructor; unfold printable, dquote; lia|].
  apply Forall_app. split; [|repeat constructor; unfold printable, dquote; lia].
  induction s as [|c s IH]; simpl; [constructor|].
  apply Forall_app. split; [apply escape_char_printable|exact IH].
Qed.

Ltac printable_literal :=
  vm_compute; repeat (constructor; [split; discriminate|]); constructor.

Lemma error_body_printable message : Forall printable (error_body message).
Proof.
  unfold error_body.
  apply Forall_app. split; [printable_literal|].
  apply Forall_app. split; [apply dumps_str_printable|].
  apply Forall_app. split; [printable_literal|].
  apply Forall_app. split; [apply dumps_str_printable|].
  printable_literal.
Qed.

(** X3: whatever the message, [_serve_error] returns normally with the 500
    response, and every byte of its body is printable ASCII: quotes,
    backslashes, line ends, control and non-ASCII characters of the message
    are all escaped, so the body is one line. *)
Theorem serve_error_body_printable float_repr message trace :
  exists body,
    _serve_error float_repr message trace = (Ok tt, trace ++ response_500 body)
    /\ Forall printable body.
Proof.
  exists (error_body message). split;
    [apply serve_error_run|apply error_body_printable].
Qed.

Lemma container_ascii indent level open_ close items :
  Forall (fun c => c < 128) open_ -> Forall (fun c => c < 128) close ->
  Forall (Forall (fun c => c < 128)) items ->
  Forall (fun c => c < 128) (container indent level open_ close items).
Proof.
  intros Ho Hc Hi. unfold container.
  assert (Hn : forall n l, Forall (fun c => c < 128) (newline_indent n l)).
  { intros n l. unfold newline_indent. constructor; [reflexivity|].
    induction (n * l)%nat; simpl; constructor; [reflexivity|assumption]. }
  destruct items as [|i items]; [now apply Forall_app|].
  destruct indent as [n|]; repeat (apply Forall_app; split); auto.
  - apply join_forall; [|exact Hi].
    apply Forall_app. split; [vm_compute; repeat constructor|apply Hn].
  - apply join_forall; [vm_compute; repeat constructor|exact Hi].
Qed.

Lemma string_of_uint_ascii u :
  Forall (fun c => c < 128) (py (NilZero.string_of_uint u)).
Proof.
  assert (E : forall v, Forall (fun c => c < 128) (py (NilEmpty.string_of_uint v))).
  { induction v; simpl; [constructor|..]; (constructor; [reflexivity|exact IHv]). }
  destruct u; try apply E. vm_compute. repeat constructor.
Qed.

Lemma dumps_int_ascii n : Forall (fun c => c < 128) (dumps_int n).
Proof.
  unfold dumps_int. destruct n as [|p|p]; cbn [Z.to_int NilZero.string_of_int].
  - vm_compute. repeat constructor.
  - apply string_of_uint_ascii.
  - change (py (String "-" (NilZero.string_of_uint (Pos.to_uint p))))
      with (45 :: py (NilZero.string_of_uint (Pos.to_uint p))).
    constructor; [reflexivity|apply string_of_uint_ascii].
Qed.

Lemma dumps_dict_ascii float_repr indent level d :
  (forall f, Forall (fun c => c < 128) (py (float_repr f))) ->
  Forall (fun c => c < 128) (dumps_dict float_repr indent level d).
Proof.
  intros Hf. unfold dumps_dict.
  apply container_ascii;
    [vm_compute; repeat constructor|vm_compute; repeat constructor|].
  apply Forall_map, Forall_forall. intros [k v] _. unfold dumps_item.
  cbn [fst snd]. apply Forall_app. split; [apply dumps_str_ascii|].
  apply Forall_app. split; [vm_compute; repeat constructor|].
  destruct v as [text|f|n]; simpl;
    [apply dumps_str_ascii|apply Hf|apply dumps_int_ascii].
Qed.

(** X4: when the runtime writes floats in ASCII, as [float.__repr__] does,
    the body of the 200 response is ASCII whatever the records hold: every
    non-ASCII character of an ssid or any other field is escaped, and the bytes
    sent are the characters of the JSON text one for one. *)
Theorem json_body_ascii float_repr records :
  (forall f, Forall (fun c => c < 128) (py (float_repr f))) ->
  encode (json_dumps float_repr (JArray records) (Some 2%nat))
  = Ok (json_dumps float_repr (JArray records) (Some 2%nat))
  /\ Forall (fun c => c < 128)
            (json_dumps float_repr (JArray records) (Some 2%nat)).
Proof.
  intros Hf.
  assert (A : Forall (fun c => c < 128)
                     (json_dumps float_repr (JArray records) (Some 2%nat))).
  { simpl. apply container_ascii;
      [vm_compute; repeat constructor|vm_compute; repeat constructor|].
    apply Forall_map, Forall_forall. intros d _. now apply dumps_dict_ascii. }
  split; [|exact A]. unfold encode. now apply encode_from_ascii.
Qed.

Lemma json_body_ascii_witness :
  encode (json_dumps repr_zero (JArray [[(py "ssid", VStr [233; 128512])]])
                     (Some 2%nat))
  = Ok (json_dumps repr_zero (JArray [[(py "ssid", VStr [233; 128512])]])
                   (Some 2%nat))
  /\ Forall (fun c => c < 128)
            (json_dumps repr_zero (JArray [[(py "ssid", VStr [233; 128512])]])
                        (Some 2%nat)).
Proof.
  apply (json_body_ascii repr_zero [[(py "ssid", VStr [233; 128512])]]).
  intros f. vm_compute. repeat constructor.
Defined.

(** ** Lines without a field *)

Lemma separator_plain_space c :
  separator c = true -> plain c = true -> is_space c = true.
Proof.
  unfold separator, plain. destruct (is_space c), (is_comma c); simpl; congruence.
Qed.

Lemma quote_not_separator c : is_quote c = true -> separator c = false.
Proof. intros H. apply is_quote_spec in H. now subst c. Qed.

Lemma span_fst_incl p s c : In c (fst (span p s)) -> In c s.
Proof. intros H. rewrite <- (span_app p s). apply in_or_app. now left. Qed.

Lemma span_snd_incl p s c : In c (snd (span p s)) -> In c s.
Proof. intros H. rewrite <- (span_app p s). apply in_or_app. now right. Qed.

Lemma cleaned_fields_separators (line : str) :
  forallb separator line = true -> cleaned_fields line = [].
Proof.
  induction line as [|c r Hc IH|c r Hc IH|c r inner q after Hc Es IH|c r inner Hc Es IH]
    using scan_ind; intros H.
  - reflexivity.
  - simpl in H. apply andb_true_iff in H as [H1 H2].
    rewrite forallb_forall in H2.
    unfold cleaned_fields in *. rewrite (re_findall_plain _ _ Hc).
    cbn [filter]. rewrite strip_all.
    + apply IH. apply forallb_forall. intros x Hx.
      apply H2. now apply span_snd_incl in Hx.
    + simpl. rewrite (separator_plain_space _ H1 Hc). simpl.
      apply forallb_forall. intros x Hx. apply separator_plain_space.
      * apply H2. now apply span_fst_incl in Hx.
      * exact (proj1 (forallb_forall _ _) (span_all plain r) x Hx).
  - simpl in H. apply andb_true_iff in H as [_ H2].
    unfold cleaned_fields in *. rewrite (re_findall_comma _ _ Hc). now apply IH.
  - simpl in H. rewrite (quote_not_separator _ Hc) in H. discriminate.
  - simpl in H. rewrite (quote_not_separator _ Hc) in H. discriminate.
Qed.

Lemma parse_line_no_field line :
  cleaned_fields line = [] -> _parse_wifi_line line = Ok defaults.
Proof. intros E. unfold _parse_wifi_line. cbv zeta. rewrite E. reflexivity. Qed.

Lemma split_lines_single line :
  ~ In newline line -> split_lines line = [line].
Proof.
  induction line as [|c line IH]; simpl; [reflexivity|]. intros H.
  destruct (is_newline c) eqn:E.
  - apply N.eqb_eq in E. subst c. tauto.
  - rewrite IH by tauto. reflexivity.
Qed.

Lemma blank_all_space s : blank s = true -> forallb is_space s = true.
Proof.
  unfold blank. intros H. apply strip_nil_all.
  now destruct (strip is_space s).
Qed.

(** X5: a line made only of commas and spaces has no field, and its record
    is the fifteen defaults; when it holds a comma it is not blank, so as a
    line of a text it is not skipped: it gives one record of defaults. *)
Theorem separators_only_line line :
  forallb separator line = true ->
  _parse_wifi_line line = Ok defaults
  /\ (In comma line -> ~ In newline line ->
      _parse_wifi_content line = Ok [defaults]).
Proof.
  intros H.
  pose proof (parse_line_no_field _ (cleaned_fields_separators _ H)) as E.
  split; [exact E|]. intros Hc Hn.
  rewrite parse_content_traverse. unfold nonblank_lines.
  rewrite (split_lines_single _ Hn). cbn [filter].
  destruct (blank line) eqn:B.
  - apply blank_all_space in B.
    pose proof (proj1 (forallb_forall _ _) B _ Hc) as C. discriminate.
  - cbn [negb traverse]. rewrite E. reflexivity.
Qed.

Lemma separators_only_line_witness :
  _parse_wifi_line (py " , ,,") = Ok defaults
  /\ _parse_wifi_content (py " , ,,") = Ok [defaults].
Proof.
  destruct (separators_only_line (py " , ,,")) as [E F];
    [vm_compute; reflexivity|].
  split; [exact E|]. apply F.
  - vm_compute. auto.
  - vm_compute. intuition discriminate.
Defined.

(** ** Fields past the fifteenth *)

Lemma text_field_app fields more i default :
  (i < length fields)%nat ->
  text_field (fields ++ more) i default = text_field fields i default.
Proof.
  intros H. unfold text_field. rewrite length_app, app_nth1 by exact H.
  destruct (Nat.ltb_spec i (length fields)); [|lia].
  now destruct (Nat.ltb_spec i (length fields + length more)); [|lia].
Qed.

Lemma float_field_app fields more i :
  (i < length fields)%nat ->
  float_field (fields ++ more) i = float_field fields i.
Proof.
  intros H. now rewrite !float_field_spec, nth_error_app1.
Qed.

Lemma int_field_app fields more i :
  (i < length fields)%nat ->
  int_field (fields ++ more) i = int_field fields i.
Proof.
  intros H. now rewrite !int_field_spec, nth_error_app1.
Qed.

(** X6: the record is made of the first fifteen fields only. After a line
    that has fifteen fields or more, and whose double quotes pair up, a comma
    and any further text change nothing: neither the record nor the exception
    that the line gives. *)
Theorem fields_past_fifteenth_ignored line more :
  Nat.even (quote_count line) = true ->
  (15 <= length (cleaned_fields line))%nat ->
  _parse_wifi_line (line ++ comma :: more) = _parse_wifi_line line.
Proof.
  intros He Hl. unfold _parse_wifi_line. cbv zeta.
  rewrite (cleaned_fields_app line (comma :: more) He eq_refl).
  rewrite !text_field_app, !float_field_app, !int_field_app by lia.
  reflexivity.
Qed.

Lemma fields_past_fifteenth_ignored_witness :
  _parse_wifi_line (py "a,b,1,2,c,3,d,e,4,f,g,h,i,j,k" ++ comma :: py "l,m,n")
  = _parse_wifi_line (py "a,b,1,2,c,3,d,e,4,f,g,h,i,j,k").
Proof.
  apply (fields_past_fifteenth_ignored (py "a,b,1,2,c,3,d,e,4,f,g,h,i,j,k")
                                       (py "l,m,n")).
  - vm_compute. reflexivity.
  - vm_compute. lia.
Defined.

(** ** Spaces around a line and around a field *)

Lemma dropwhile_head p s :
  match dropwhile p s with [] => True | x :: _ => p x = false end.
Proof.
  induction s as [|c s IH]; simpl; [exact I|].
  destruct (p c) eqn:E; [exact IH|exact E].
Qed.

Lemma dropwhile_fixed p s :
  match s with [] => True | x :: _ => p x = false end -> dropwhile p s = s.
Proof. destruct s as [|x s]; simpl; [reflexivity|]. now intros ->. Qed.

Lemma dropwhile_suffix p s : exists before, s = before ++ dropwhile p s.
Proof.
  induction s as [|c s [before IH]]; simpl; [now exists []|].
  destruct (p c); [|now exists []].
  exists (c :: before). simpl. now rewrite <- IH.
Qed.

(** What [strip] leaves is a piece of the string. *)
Lemma strip_substring p s : substring (strip p s) s.
Proof.
  unfold substring, strip, rstrip, lstrip.
  destruct (dropwhile_suffix p s) as [before E].
  destruct (dropwhile_suffix p (rev (dropwhile p s))) as [tail T].
  exists before, (rev tail).
  rewrite <- rev_app_distr, <- T, rev_involutive. exact E.
Qed.

Lemma strip_idempotent p s : strip p (strip p s) = strip p s.
Proof.
  unfold strip, rstrip, lstrip.
  set (d := dropwhile p s). set (e := dropwhile p (rev d)).
  assert (He : dropwhile p e = e) by apply dropwhile_fixed, dropwhile_head.
  assert (Hr : dropwhile p (rev e) = rev e).
  { apply dropwhile_fixed.
    destruct (dropwhile_suffix p (rev d)) as [tail T]. fold e in T.
    apply (f_equal (@rev char)) in T.
    rewrite rev_involutive, rev_app_distr in T.
    pose proof (dropwhile_head p s) as Hd. fold d in Hd.
    destruct (rev e) as [|x r]; [exact I|].
    rewrite T in Hd. exact Hd. }
  now rewrite Hr, rev_involutive, He.
Qed.

Lemma cleaned_fields_strip line :
  cleaned_fields (strip is_space line) = cleaned_fields line.
Proof.
  unfold strip, rstrip, lstrip.
  transitivity (cleaned_fields (dropwhile is_space line)).
  - rewrite <- (rev_involutive (dropwhile is_space line)) at 2.
    induction (rev (dropwhile is_space line)) as [|c l IH]; [reflexivity|].
    simpl. destruct (is_space c) eqn:E; [|reflexivity].
    rewrite IH. symmetry. now apply cleaned_fields_trail_space.
  - induction line as [|c s IH]; [reflexivity|].
    simpl. destruct (is_space c) eqn:E; [|reflexivity].
    rewrite IH. symmetry. now apply cleaned_fields_lead_space.
Qed.

(** X7: spaces around a line, a carriage return at its end among them, do
    not change what the line gives; and no field begins or ends with a space:
    stripping a field again changes nothing. *)
Theorem surrounding_spaces_ignored line :
  _parse_wifi_line (strip is_space line) = _parse_wifi_line line
  /\ _parse_wifi_line (line ++ [carriage_return]) = _parse_wifi_line line
  /\ forall field, In field (cleaned_fields line) -> strip is_space field = field.
Proof.
  split; [apply parse_line_fields, cleaned_fields_strip|]. split.
  - apply parse_line_fields. now apply cleaned_fields_trail_space.
  - intros field H. unfold cleaned_fields in H.
    apply in_map_iff in H as (t & <- & _). unfold clean.
    apply strip_idempotent.
Qed.

(** ** Texts put together *)

Lemma split_lines_newline (a b : str) :
  split_lines (a ++ newline :: b) = split_lines a ++ split_lines b.
Proof.
  induction a as [|x a IH]; simpl; [reflexivity|].
  destruct (is_newline x); [now rewrite IH|].
  rewrite IH. destruct (split_lines_cons a) as (l & ls & ->). reflexivity.
Qed.

Lemma nonblank_lines_newline a b :
  nonblank_lines (a ++ newline :: b) = nonblank_lines a ++ nonblank_lines b.
Proof. unfold nonblank_lines. now rewrite split_lines_newline, filter_app. Qed.

Lemma traverse_app {A B : Type} (f : A -> result B) l1 l2 :
  traverse f (l1 ++ l2)
  = (r1 <- traverse f l1 ;; r2 <- traverse f l2 ;; Ok (r1 ++ r2)).
Proof.
  induction l1 as [|a l1 IH]; simpl.
  - now destruct (traverse f l2).
  - destruct (f a) as [b|]; cbn [bind]; [|reflexivity].
    rewrite IH. destruct (traverse f l1) as [r1|]; cbn [bind]; [|reflexivity].
    now destruct (traverse f l2).
Qed.

Lemma parse_content_newline a b :
  _parse_wifi_content (a ++ newline :: b)
  = (first <- _parse_wifi_content a ;;
     second <- _parse_wifi_content b ;;
     Ok (first ++ second)).
Proof.
  now rewrite !parse_content_traverse, nonblank_lines_newline, traverse_app.
Qed.

(** X8: the records of two texts put one after the other, a line end
    between them, are the records of the first followed by those of the
    second; and the exception is that of the first when it raises, else that of
    the second. *)
Theorem parse_content_concat a b :
  _parse_wifi_content (a ++ newline :: b)
  = match _parse_wifi_content a, _parse_wifi_content b with
    | Ok first, Ok second => Ok (first ++ second)
    | Raise e, _ => Raise e
    | Ok _, Raise e => Raise e
    end.
Proof.
  rewrite parse_content_newline.
  destruct (_parse_wifi_content a); cbn [bind]; [|reflexivity].
  now destruct (_parse_wifi_content b).
Qed.

(** X9: a carriage return before each line end changes nothing: a text
    whose lines end in carriage return and line feed gives what the text with
    bare line feeds gives. *)
Theorem carriage_returns_ignored a b :
  _parse_wifi_content (a ++ carriage_return :: newline :: b)
  = _parse_wifi_content (a ++ newline :: b).
Proof.
  change (a ++ carriage_return :: newline :: b)
    with (a ++ [carriage_return] ++ newline :: b).
  rewrite app_assoc, !parse_content_newline.
  f_equal. rewrite !parse_content_traverse.
  now apply records_trail_space.
Qed.

(** ** Which exception *)

Lemma traverse_first_raise {A B : Type} (f : A -> result B) good bad rest e :
  (forall a, In a good -> exists b, f a = Ok b) -> f bad = Raise e ->
  traverse f (good ++ bad :: rest) = Raise e.
Proof.
  intros Hg Hb. induction good as [|a good IH]; simpl.
  - now rewrite Hb.
  - destruct (Hg a (or_introl eq_refl)) as (b & ->). cbn [bind].
    rewrite IH; [reflexivity|]. intros x Hx. apply Hg. now right.
Qed.

(** X10: the exception of a text is that of its first line, among those
    that are not blank, that raises: the lines after it are not looked at. *)
Theorem first_bad_line_raises content good bad rest e :
  nonblank_lines content = good ++ bad :: rest ->
  (forall line, In line good -> exists record, _parse_wifi_line line = Ok record) ->
  _parse_wifi_line bad = Raise e ->
  _parse_wifi_content content = Raise e.
Proof.
  intros Hl Hg Hb. rewrite parse_content_traverse, Hl.
  now apply traverse_first_raise.
Qed.

Lemma first_bad_line_raises_witness :
  _parse_wifi_content (py "a,b" ++ newline :: py "c,d,x" ++ newline :: py "e,f,g,y")
  = Raise (ValueError_float (py "x")).
Proof.
  apply (first_bad_line_raises
           (py "a,b" ++ newline :: py "c,d,x" ++ newline :: py "e,f,g,y")
           [py "a,b"] (py "c,d,x") [py "e,f,g,y"]).
  - vm_compute. reflexivity.
  - intros line [<-|[]]. eexists. vm_compute. reflexivity.
  - vm_compute. reflexivity.
Defined.

(** X11: within a line the conversions are tried in the order freq,
    beacon, signal, primary_channel, and the exception is that of the first
    that fails: when the positions before one raise nothing and the token at
    that one is refused, the line raises the exception of that token. *)
Theorem first_bad_number_raises line before i key conv after token e :
  numeric_positions = before ++ (i, key, conv) :: after ->
  (forall j key' conv', In (j, key', conv') before ->
     match nth_error (cleaned_fields line) j with
     | Some (c :: t) => exists v, conv' (c :: t) = Ok v
     | _ => True
     end) ->
  nth_error (cleaned_fields line) i = Some token -> token <> [] ->
  conv token = Raise e ->
  _parse_wifi_line line = Raise e.
Proof.
  intros Hpos Hbefore Hi Hne He.
  destruct token as [|c t]; [congruence|].
  unfold _parse_wifi_line. cbv zeta.
  rewrite !float_field_spec, !int_field_spec.
  unfold numeric_positions in Hpos.
  destruct before as [|p1 [|p2 [|p3 [|p4 before]]]]; simpl in Hpos.
  - injection Hpos as <- <- <- <-. now rewrite Hi, He.
  - injection Hpos as <- <- <- <- <-.
    destruct (numeric_field_ok _ _ _ (Hbefore _ _ _ (or_introl eq_refl))
                (VFloat float_zero)) as (v2 & ->).
    cbn [bind]. now rewrite Hi, He.
  - injection Hpos as <- <- <- <- <- <-.
    destruct (numeric_field_ok _ _ _ (Hbefore _ _ _ (or_introl eq_refl))
                (VFloat float_zero)) as (v2 & ->).
    destruct (numeric_field_ok _ _ _ (Hbefore _ _ _ (or_intror (or_introl eq_refl)))
                (VInt 0)) as (v3 & ->).
    cbn [bind]. now rewrite Hi, He.
  - injection Hpos as <- <- <- <- <- <- <-.
    destruct (numeric_field_ok _ _ _ (Hbefore _ _ _ (or_introl eq_refl))
                (VFloat float_zero)) as (v2 & ->).
    destruct (numeric_field_ok _ _ _ (Hbefore _ _ _ (or_intror (or_introl eq_refl)))
                (VInt 0)) as (v3 & ->).
    destruct (numeric_field_ok _ _ _
                (Hbefore _ _ _ (or_intror (or_intror (or_introl eq_refl))))
                (VFloat float_zero)) as (v5 & ->).
    cbn [bind]. now rewrite Hi, He.
  - exfalso. injection Hpos as _ _ _ _ Hpos.
    destruct before; discriminate.
Qed.

Lemma first_bad_number_raises_witness :
  _parse_wifi_line (py "a,b,2412,many,c,loud,d,e,six")
  = Raise (ValueError_int (py "many")).
Proof.
  apply (first_bad_number_raises (py "a,b,2412,many,c,loud,d,e,six")
           [(2%nat, py "freq", float_of)] 3%nat (py "beacon") int_of
           [(5%nat, py "signal", float_of); (8%nat, py "primary_channel", int_of)]
           (py "many")).
  - reflexivity.
  - intros j key' conv' [[= <- <- <-]|[]]. vm_compute. eauto.
  - vm_compute. reflexivity.
  - discriminate.
  - vm_compute. reflexivity.
Defined.

(** ** Text positions *)

Lemma text_field_present fields i default token :
  nth_error fields i = Some token -> text_field fields i default = VStr token.
Proof.
  intros H. apply nth_error_present in H as [H1 H2].
  unfold text_field. now rewrite H1, H2.
Qed.

Lemma record_lookup_text (v0 v1 v2 v3 v4 v5 v6 v7 v8 v9 v10 v11 v12 v13 v14 : value) :
  let record :=
    [ (py "bss", v0); (py "tsf", v1); (py "freq", v2); (py "beacon", v3);
      (py "capa", v4); (py "signal", v5); (py "ssid", v6); (py "ht_capa", v7);
      (py "primary_channel", v8); (py "vht_capa", v9); (py "he_capa", v10);
      (py "he_phy_capa", v11); (py "encryption", v12); (py "cipher", v13);
      (py "suite", v14) ] in
  lookup (py "bss") record = Some v0
  /\ lookup (py "tsf") record = Some v1
  /\ lookup (py "capa") record = Some v4
  /\ lookup (py "ssid") record = Some v6
  /\ lookup (py "ht_capa") record = Some v7
  /\ lookup (py "vht_capa") record = Some v9
  /\ lookup (py "he_capa") record = Some v10
  /\ lookup (py "he_phy_capa") record = Some v11
  /\ lookup (py "encryption") record = Some v12
  /\ lookup (py "cipher") record = Some v13
  /\ lookup (py "suite") record = Some v14.
Proof. repeat split; vm_compute; reflexivity. Qed.

(** X12: at a text position a token that is present is copied as it is,
    the empty one too: the default stands only for a position that is
    absent. *)
Theorem present_text_verbatim line record i key default token :
  In (i, key, default) text_positions ->
  _parse_wifi_line line = Ok record ->
  nth_error (cleaned_fields line) i = Some token ->
  lookup key record = Some (VStr token).
Proof.
  intros Hin H Hn.
  apply parse_line_ok in H
    as (freq & beacon & signal & channel & _ & _ & _ & _ & ->).
  match goal with
  | |- context [lookup key ?r] =>
      match r with
      | [ (_, ?v0); (_, ?v1); (_, ?v2); (_, ?v3); (_, ?v4); (_, ?v5); (_, ?v6);
          (_, ?v7); (_, ?v8); (_, ?v9); (_, ?v10); (_, ?v11); (_, ?v12);
          (_, ?v13); (_, ?v14) ] =>
          destruct (record_lookup_text v0 v1 v2 v3 v4 v5 v6 v7 v8 v9 v10 v11
                                       v12 v13 v14)
            as (L0 & L1 & L4 & L6 & L7 & L9 & L10 & L11 & L12 & L13 & L14)
      end
  end.
  simpl in Hin.
  repeat (destruct Hin as [[= <- <- <-]|Hin];
          [ match goal with
            | L : lookup ?k _ = _ |- lookup ?k _ = _ => rewrite L
            end; f_equal; now apply text_field_present |]).
  destruct Hin.
Qed.

Lemma present_text_verbatim_witness :
  lookup (py "capa")
         [ (py "bss", VStr (py "a")); (py "tsf", VStr (py "b"));
           (py "freq", VFloat (Decimal false 1 0)); (py "beacon", VInt 2);
           (py "capa", VStr []); (py "signal", VFloat (Decimal false 3 0));
           (py "ssid", VStr (py "")); (py "ht_capa", VStr (py "0x0"));
           (py "primary_channel", VInt 0); (py "vht_capa", VStr (py "0x0"));
           (py "he_capa", VStr (py "0x0")); (py "he_phy_capa", VStr (py ""));
           (py "encryption", VStr (py "")); (py "cipher", VStr (py ""));
           (py "suite", VStr (py "")) ]
  = Some (VStr []).
Proof.
  apply (present_text_verbatim (py "a,b,1,2," ++ quoted [] ++ py ",3") _
                               4%nat (py "capa") (py "0x0") []).
  - simpl. auto.
  - vm_compute. reflexivity.
  - vm_compute. reflexivity.
Defined.

(** ** Lines written from tokens and from fields *)

Lemma token_alone t :
  token t -> re_findall t = [t] /\ Nat.even (quote_count t) = true.
Proof.
  intros [[Hn Hp]|(inner & Hu & ->)].
  - split; [|now apply plain_even].
    rewrite (re_findall_all_plain _ Hp). now destruct t.
  - split.
    + unfold quoted. change [dquote] with (dquote :: []).
      now rewrite (re_findall_quoted inner [] Hu).
    + unfold quoted. rewrite quote_count_cons, quote_count_app,
        (quote_count_unquote _ Hu). reflexivity.
Qed.

Lemma re_findall_join ts :
  Forall token ts -> re_findall (join [comma] ts) = ts.
Proof.
  induction 1 as [|t ts Ht Hts IH]; [reflexivity|].
  destruct (token_alone t Ht) as [E He].
  destruct ts as [|t' ts]; [exact E|].
  change (join [comma] (t :: t' :: ts)) with (t ++ comma :: join [comma] (t' :: ts)).
  rewrite re_findall_app; [|exact He|reflexivity].
  rewrite E, re_findall_comma by reflexivity. cbn [app]. now rewrite IH.
Qed.

Lemma re_findall_tokens line : Forall token (re_findall line).
Proof.
  apply Forall_forall. intros t Ht. now apply token_shape in Ht.
Qed.

(** X13: tokens joined by commas are scanned back as themselves, quoted
    spans with commas inside among them; and so the tokens of any line, joined
    by commas, are scanned as the same tokens. *)
Theorem tokens_round_trip :
  (forall ts, Forall token ts -> re_findall (join (py ",") ts) = ts)
  /\ (forall line, re_findall (join (py ",") (re_findall line)) = re_findall line).
Proof.
  change (py ",") with [comma]. split.
  - apply re_findall_join.
  - intros line. apply re_findall_join, re_findall_tokens.
Qed.

(** X14: any list of fields without double quote and without spaces around
    them, empty ones and ones with commas included, is what the line gives in
    which each is written between double quotes and they are joined by
    commas. *)
Theorem quoted_fields_round_trip fields :
  Forall (fun field => forallb unquote field = true
                       /\ strip is_space field = field) fields ->
  cleaned_fields (join (py ",") (map quoted fields)) = fields.
Proof.
  intros H. change (py ",") with [comma]. unfold cleaned_fields.
  rewrite re_findall_join.
  - induction H as [|f fs [Hu Hs] _ IH]; [reflexivity|].
    cbn [map filter].
    pose proof (quoted_not_blank f) as Q. unfold blank in Q.
    apply negb_false_iff in Q. unfold quoted at 1. rewrite Q.
    cbn [map]. unfold quoted at 1. rewrite (clean_quoted _ Hu), Hs.
    now rewrite IH.
  - apply Forall_map. eapply Forall_impl; [|exact H].
    intros f [Hu _]. right. now exists f.
Qed.

Lemma quoted_fields_round_trip_witness :
  cleaned_fields (join (py ",") (map quoted [py "My, Home Network"; []; py "x y"]))
  = [py "My, Home Network"; []; py "x y"].
Proof.
  apply (quoted_fields_round_trip [py "My, Home Network"; []; py "x y"]).
  repeat (constructor; [split; vm_compute; reflexivity|]). constructor.
Defined.

(** ** Where the fields come from *)

Lemma substring_refl s : substring s s.
Proof. exists [], []. now rewrite app_nil_r. Qed.

Lemma substring_trans a b c : substring a b -> substring b c -> substring a c.
Proof.
  intros (p & q & ->) (p' & q' & ->).
  exists (p' ++ p), (q ++ q'). now rewrite <- !app_assoc.
Qed.

Lemma substring_after t before s : substring t s -> substring t (before ++ s).
Proof.
  intros (p & q & ->). exists (before ++ p), q. now rewrite <- app_assoc.
Qed.

Lemma token_substring line t : In t (re_findall line) -> substring t line.
Proof.
  revert t.
  induction line as [|c r Hc IH|c r Hc IH|c r inner q after Hc Es IH|c r inner Hc Es IH]
    using scan_ind; intros t.
  - intros [].
  - rewrite (re_findall_plain _ _ Hc).
    pose proof (span_app plain r) as A. intros [<-|H].
    + exists [], (snd (span plain r)). simpl. now rewrite A.
    + replace (c :: r) with ((c :: fst (span plain r)) ++ snd (span plain r))
        by (simpl; now rewrite A).
      now apply substring_after, IH.
  - rewrite (re_findall_comma _ _ Hc). intros H.
    apply (substring_after t [c] r). now apply IH.
  - rewrite (re_findall_quote _ _ Hc), Es.
    pose proof (span_app unquote r) as A. rewrite Es in A. simpl in A.
    intros [<-|H].
    + exists [], after. simpl. now rewrite <- app_assoc, <- A.
    + replace (c :: r) with ((c :: inner ++ [q]) ++ after)
        by (simpl; now rewrite <- app_assoc, <- A).
      now apply substring_after, IH.
  - rewrite (re_findall_quote _ _ Hc), Es. intros H.
    apply (substring_after t [c] r). now apply IH.
Qed.

(** X15: every field is a contiguous piece of the line: the parser joins
    nothing, replaces nothing and unescapes nothing. *)
Theorem fields_are_substrings line field :
  In field (cleaned_fields line) -> substring field line.
Proof.
  unfold cleaned_fields. intros H.
  apply in_map_iff in H as (t & <- & Ht). apply filter_In in Ht as [Ht _].
  unfold clean.
  eapply substring_trans; [apply strip_substring|].
  eapply substring_trans; [apply strip_substring|].
  now apply token_substring.
Qed.

Lemma fields_are_substrings_witness :
  substring (py "My, Home Network") home_network_line.
Proof.
  apply (fields_are_substrings home_network_line (py "My, Home Network")).
  vm_compute. auto 10.
Defined.

(** ** The shape of every record *)

Lemma parse_line_schema line record :
  _parse_wifi_line line = Ok record ->
  map fst record = attribute_names
  /\ map (fun item => kind_of (snd item)) record = attribute_kinds.
Proof.
  intros H.
  apply parse_line_ok in H
    as (freq & beacon & signal & channel & Hf & Hb & Hs & Hc & ->).
  apply float_field_value in Hf as (? & ->), Hs as (? & ->).
  apply int_field_value in Hb as (? & ->), Hc as (? & ->).
  split; [reflexivity|].
  unfold text_field. cbn [map snd].
  repeat match goal with
         | |- context [if ?b then VStr _ else VStr _] => destruct b
         end; reflexivity.
Qed.

(** X16: all the records of a text have the same shape: the fifteen
    attributes in the same order, freq and signal floats, beacon and
    primary_channel integers, the others strings. *)
Theorem records_same_schema content records :
  _parse_wifi_content content = Ok records ->
  Forall (fun record =>
            map fst record = attribute_names
            /\ map (fun item => kind_of (snd item)) record = attribute_kinds)
         records.
Proof.
  rewrite parse_content_traverse. intros H. apply traverse_ok in H.
  induction H as [|line record lines records Hl _ IH]; constructor;
    [now apply (parse_line_schema line)|exact IH].
Qed.

Lemma records_same_schema_witness :
  Forall (fun record =>
            map fst record = attribute_names
            /\ map (fun item => kind_of (snd item)) record = attribute_kinds)
         [ [ (py "bss", VStr (py "aa:bb:cc:dd:ee:ff"));
             (py "tsf", VStr (py "123456"));
             (py "freq", VFloat float_zero);
             (py "beacon", VInt 0);
             (py "capa", VStr (py "0x0"));
             (py "signal", VFloat float_zero);
             (py "ssid", VStr (py ""));
             (py "ht_capa", VStr (py "0x0"));
             (py "primary_channel", VInt 0);
             (py "vht_capa", VStr (py "0x0"));
             (py "he_capa", VStr (py "0x0"));
             (py "he_phy_capa", VStr (py ""));
             (py "encryption", VStr (py ""));
             (py "cipher", VStr (py ""));
             (py "suite", VStr (py "")) ] ].
Proof.
  apply (records_same_schema (py "aa:bb:cc:dd:ee:ff,123456")).
  vm_compute. reflexivity.
Defined.

(** ** A line in the expected form *)

(** X17: a line in the expected form, fields without comma or double
    quote, none of them blank, joined by commas, gives exactly those fields, in
    order, each without the spaces around it: one position per field, whatever
    their number. *)
Theorem plain_fields_in_order (fields : list str) :
  Forall (fun field => forallb plain field = true /\ blank field = false) fields ->
  cleaned_fields (join (py ",") fields) = map (strip is_space) fields.
Proof.
  intros H. change (py ",") with [comma]. rewrite cleaned_fields_tokens.
  rewrite re_findall_join.
  - induction H as [|f fs [Hp Hb] _ IH]; [reflexivity|].
    cbn [filter map]. rewrite Hb. cbn [negb map].
    now rewrite (clean_plain _ Hp), IH.
  - eapply Forall_impl; [|exact H].
    intros f [Hp Hb]. left. split; [|exact Hp].
    intros ->. discriminate.
Qed.

Lemma plain_fields_in_order_witness :
  cleaned_fields (join (py ",") [py "aa:bb"; py " ts "; py "2412"])
  = map (strip is_space) [py "aa:bb"; py " ts "; py "2412"].
Proof.
  apply (plain_fields_in_order [py "aa:bb"; py " ts "; py "2412"]).
  repeat (constructor; [split; vm_compute; reflexivity|]). constructor.
Defined.
